(** * NFT_Fusion_GameFi: the batch/oracle contract and the client codec

    A shallow embedding of [contracts/NFT_Fusion_GameFi.sol] (contract
    [NFTFusionGameFiFHE]) and of the two attribute codec functions of
    [frontend/web/src/App.tsx], with the properties the specification
    states about them. *)

From Stdlib Require Import ZArith List Bool Lia String Ascii.
From Stdlib Require Import Init.Byte DecimalString DecimalZ DecimalPos DecimalN.
From Stdlib Require Import Sorting.Sorted Sorting.Permutation.
From stdpp Require Import base option gmap.

Import ListNotations.
Local Open Scope Z_scope.

(** ** Solidity value types *)

Definition address := Z.
Definition uint256 := Z.
Definition bytes32 := Z.

(** [euint32] is a user-defined value type over [bytes32]: a ciphertext
    handle. *)
Definition euint32 := Z.

Definition MAX_UINT256 : Z := 2 ^ 256 - 1.

(** Storage reads of a slot never written give the zero value of the type. *)
Class Zero (A : Type) := zero : A.
Global Instance Zero_bool : Zero bool := false.
Global Instance Zero_Z : Zero Z := 0.

(** [m[k]] for a Solidity mapping. *)
Definition rd {A} `{Zero A} (m : gmap Z A) (k : Z) : A := default zero (m !! k).
Global Arguments rd : simpl never.

(** ** What the contract imports

    The FHE library ([@fhevm/solidity/lib/FHE.sol]) is not part of the
    repository: its operations on handles are taken as parameters. *)
Module FHE.
Class Lib := {
  asEuint32 : uint256 -> euint32;
  add : euint32 -> euint32 -> euint32;
  div : euint32 -> euint32 -> euint32;
  isInitialized : euint32 -> bool;
  toBytes32 : euint32 -> bytes32;
  (** [checkSignatures requestId cleartexts proof]: [false] when the
      library rejects the proof (it then reverts the call). *)
  checkSignatures : uint256 -> list byte -> list byte -> bool
}.

(** The plaintext behind a handle, and the homomorphic laws of the three
    operations the contract uses. Division by an encrypted zero is left
    unspecified. *)
Class Semantics (L : Lib) := {
  decrypt : euint32 -> Z;
  decrypt_asEuint32 : forall n, decrypt (asEuint32 n) = n mod 2 ^ 32;
  decrypt_add : forall a b, decrypt (add a b) = (decrypt a + decrypt b) mod 2 ^ 32;
  decrypt_div : forall a b, decrypt b <> 0 -> decrypt (div a b) = decrypt a / decrypt b
}.
End FHE.

(** The EVM side: the hash function and the address of the deployed
    contract ([address(this)]). *)
Class EVM := {
  keccak256 : list Z -> bytes32;
  this : address
}.

(** [abi.encode(cts, address(this))] as 32-byte words: the offset of the
    dynamic array, the address, then the array length and its elements. *)
Definition abi_encode (cts : list bytes32) (a : address) : list Z :=
  [64; a; Z.of_nat (length cts)] ++ cts.

(** ** Errors, events, effects *)

Module Error.
Inductive t :=
| NotOwner | NotProvider | Paused | CooldownActive | BatchClosed
| InvalidBatch | NotEnoughNFTs | InvalidNFT | ReplayAttempt
| StateMismatch | InvalidProof | AlreadyInitialized | NotInitialized
(** checked arithmetic overflowed (Solidity 0.8 panic) *)
| Panic
(** [abi.decode] or a slice ran past the end of its input *)
| DecodeFailure
(** the revert raised inside [FHE.checkSignatures] *)
| LibraryRevert.

(** The errors the contract declares. *)
Definition named (e : t) : bool :=
  match e with
  | Panic | DecodeFailure | LibraryRevert => false
  | _ => true
  end.
End Error.

Module Event.
Inductive t :=
| ProviderAdded (provider : address)
| ProviderRemoved (provider : address)
| Paused (account : address)
| Unpaused (account : address)
| CooldownSet (oldCooldownSeconds newCooldownSeconds : uint256)
| BatchOpened (batchId : uint256)
| BatchClosed (batchId : uint256)
| NFTSubmitted (owner : address) (tokenId batchId : uint256)
| FusionRequested (requestId batchId stateHash : uint256)
| FusionCompleted (requestId batchId newTokenId : uint256)
                  (attributes : uint256 * uint256 * uint256).
End Event.

(** What a call does besides writing storage. *)
Inductive Effect :=
| Emit (e : Event.t)
| RequestDecryption (cts : list bytes32).

(** ** Storage *)

Record DecryptionContext := {
  batchId : uint256;
  stateHash : bytes32;
  processed : bool
}.

Record NFTData := {
  attr1 : euint32;
  attr2 : euint32;
  attr3 : euint32;
  initialized : bool
}.

Record Batch := {
  isOpen : bool;
  numNFTs : uint256;
  nftOwners : gmap Z address;
  nftData : gmap Z NFTData
}.

Global Instance Zero_DecryptionContext : Zero DecryptionContext :=
  {| batchId := 0; stateHash := 0; processed := false |}.
Global Instance Zero_NFTData : Zero NFTData :=
  {| attr1 := 0; attr2 := 0; attr3 := 0; initialized := false |}.
Global Instance Zero_Batch : Zero Batch :=
  {| isOpen := false; numNFTs := 0; nftOwners := ∅; nftData := ∅ |}.

Record State := {
  owner : address;
  isProvider : gmap Z bool;
  paused : bool;
  cooldownSeconds : uint256;
  lastSubmissionTime : gmap Z uint256;
  lastRequestTime : gmap Z uint256;
  currentBatchId : uint256;
  batches : gmap Z Batch;
  decryptionContexts : gmap Z DecryptionContext;
  lastTokenId : uint256
}.

Definition set_isProvider (v : gmap Z bool) (s : State) : State :=
  {| owner := owner s; isProvider := v; paused := paused s;
     cooldownSeconds := cooldownSeconds s;
     lastSubmissionTime := lastSubmissionTime s;
     lastRequestTime := lastRequestTime s;
     currentBatchId := currentBatchId s; batches := batches s;
     decryptionContexts := decryptionContexts s;
     lastTokenId := lastTokenId s |}.

Definition set_paused (v : bool) (s : State) : State :=
  {| owner := owner s; isProvider := isProvider s; paused := v;
     cooldownSeconds := cooldownSeconds s;
     lastSubmissionTime := lastSubmissionTime s;
     lastRequestTime := lastRequestTime s;
     currentBatchId := currentBatchId s; batches := batches s;
     decryptionContexts := decryptionContexts s;
     lastTokenId := lastTokenId s |}.

Definition set_cooldownSeconds (v : uint256) (s : State) : State :=
  {| owner := owner s; isProvider := isProvider s; paused := paused s;
     cooldownSeconds := v;
     lastSubmissionTime := lastSubmissionTime s;
     lastRequestTime := lastRequestTime s;
     currentBatchId := currentBatchId s; batches := batches s;
     decryptionContexts := decryptionContexts s;
     lastTokenId := lastTokenId s |}.

Definition set_lastSubmissionTime (v : gmap Z uint256) (s : State) : State :=
  {| owner := owner s; isProvider := isProvider s; paused := paused s;
     cooldownSeconds := cooldownSeconds s;
     lastSubmissionTime := v;
     lastRequestTime := lastRequestTime s;
     currentBatchId := currentBatchId s; batches := batches s;
     decryptionContexts := decryptionContexts s;
     lastTokenId := lastTokenId s |}.

Definition set_lastRequestTime (v : gmap Z uint256) (s : State) : State :=
  {| owner := owner s; isProvider := isProvider s; paused := paused s;
     cooldownSeconds := cooldownSeconds s;
     lastSubmissionTime := lastSubmissionTime s;
     lastRequestTime := v;
     currentBatchId := currentBatchId s; batches := batches s;
     decryptionContexts := decryptionContexts s;
     lastTokenId := lastTokenId s |}.

Definition set_currentBatchId (v : uint256) (s : State) : State :=
  {| owner := owner s; isProvider := isProvider s; paused := paused s;
     cooldownSeconds := cooldownSeconds s;
     lastSubmissionTime := lastSubmissionTime s;
     lastRequestTime := lastRequestTime s;
     currentBatchId := v; batches := batches s;
     decryptionContexts := decryptionContexts s;
     lastTokenId := lastTokenId s |}.

Definition set_batches (v : gmap Z Batch) (s : State) : State :=
  {| owner := owner s; isProvider := isProvider s; paused := paused s;
     cooldownSeconds := cooldownSeconds s;
     lastSubmissionTime := lastSubmissionTime s;
     lastRequestTime := lastRequestTime s;
     currentBatchId := currentBatchId s; batches := v;
     decryptionContexts := decryptionContexts s;
     lastTokenId := lastTokenId s |}.

Definition set_decryptionContexts (v : gmap Z DecryptionContext) (s : State) : State :=
  {| owner := owner s; isProvider := isProvider s; paused := paused s;
     cooldownSeconds := cooldownSeconds s;
     lastSubmissionTime := lastSubmissionTime s;
     lastRequestTime := lastRequestTime s;
     currentBatchId := currentBatchId s; batches := batches s;
     decryptionContexts := v;
     lastTokenId := lastTokenId s |}.

Definition set_lastTokenId (v : uint256) (s : State) : State :=
  {| owner := owner s; isProvider := isProvider s; paused := paused s;
     cooldownSeconds := cooldownSeconds s;
     lastSubmissionTime := lastSubmissionTime s;
     lastRequestTime := lastRequestTime s;
     currentBatchId := currentBatchId s; batches := batches s;
     decryptionContexts := decryptionContexts s;
     lastTokenId := v |}.

(** Field writes inside one batch. *)
Definition set_isOpen (v : bool) (b : Batch) : Batch :=
  {| isOpen := v; numNFTs := numNFTs b; nftOwners := nftOwners b; nftData := nftData b |}.
Definition set_numNFTs (v : uint256) (b : Batch) : Batch :=
  {| isOpen := isOpen b; numNFTs := v; nftOwners := nftOwners b; nftData := nftData b |}.
Definition set_nftOwners (v : gmap Z address) (b : Batch) : Batch :=
  {| isOpen := isOpen b; numNFTs := numNFTs b; nftOwners := v; nftData := nftData b |}.
Definition set_nftData (v : gmap Z NFTData) (b : Batch) : Batch :=
  {| isOpen := isOpen b; numNFTs := numNFTs b; nftOwners := nftOwners b; nftData := v |}.
Definition set_processed (v : bool) (c : DecryptionContext) : DecryptionContext :=
  {| batchId := batchId c; stateHash := stateHash c; processed := v |}.

(** ** Execution of one call

    A function body runs over the storage and either returns, with the
    storage it wrote and the effects it produced, or aborts with an error;
    the storage at the point of the abort is kept, so that what a failing
    body had already written stays visible. *)

Inductive Res (A : Type) :=
| Ret (a : A) (s : State) (l : list Effect)
| Rev (e : Error.t) (s : State).
Arguments Ret {A} a s l.
Arguments Rev {A} e s.

Definition M (A : Type) := State -> Res A.

Definition ret {A} (a : A) : M A := fun s => Ret a s [].

Definition bind {A B} (m : M A) (f : A -> M B) : M B :=
  fun s =>
    match m s with
    | Ret a s1 l1 =>
        match f a s1 with
        | Ret b s2 l2 => Ret b s2 (l1 ++ l2)
        | Rev e s2 => Rev e s2
        end
    | Rev e s1 => Rev e s1
    end.

Notation "'do' x <- m ; k" := (bind m (fun x => k))
  (at level 10, x name, m at level 100, k at level 200).
Notation "m ;; k" := (bind m (fun _ => k))
  (at level 100, k at level 200, right associativity).

Definition load : M State := fun s => Ret s s [].
Definition store (f : State -> State) : M unit := fun s => Ret tt (f s) [].
Definition revert {A} (e : Error.t) : M A := fun s => Rev e s.
Definition emit (e : Event.t) : M unit := fun s => Ret tt s [Emit e].
Definition external (x : Effect) : M unit := fun s => Ret tt s [x].

(** [if (c) revert e;] *)
Definition revert_if (c : bool) (e : Error.t) : M unit :=
  if c then revert e else ret tt.

(** [x + y] and [x++] in checked arithmetic. *)
Definition checked_add (x y : uint256) : M uint256 :=
  if x + y >? MAX_UINT256 then revert Error.Panic else ret (x + y).

(** The call context. [requestId] is the id that [FHE.requestDecryption]
    hands out if the call reaches it. *)
Record Env := {
  msg_sender : address;
  block_timestamp : uint256;
  requestId : uint256
}.

(** ** The contract *)

Section Contract.
Context {L : FHE.Lib} {E : EVM}.

(** [constructor()] *)
Definition constructor (deployer : address) : State :=
  {| owner := deployer;
     isProvider := <[deployer := true]> ∅;
     paused := false;
     cooldownSeconds := 30;
     lastSubmissionTime := ∅;
     lastRequestTime := ∅;
     currentBatchId := 1;
     batches := ∅;
     decryptionContexts := ∅;
     lastTokenId := 0 |}.

(** *** Modifiers *)

Definition onlyOwner (env : Env) : M unit :=
  do s <- load;
  revert_if (negb (msg_sender env =? owner s)) Error.NotOwner.

Definition onlyProvider (env : Env) : M unit :=
  do s <- load;
  revert_if (negb (rd (isProvider s) (msg_sender env))) Error.NotProvider.

Definition whenNotPaused : M unit :=
  do s <- load;
  revert_if (paused s) Error.Paused.

Definition checkCooldown (isSubmission : bool) (env : Env) : M unit :=
  do s <- load;
  let cooldown :=
    if isSubmission then rd (lastSubmissionTime s) (msg_sender env)
    else rd (lastRequestTime s) (msg_sender env) in
  do limit <- checked_add cooldown (cooldownSeconds s);
  revert_if (block_timestamp env <? limit) Error.CooldownActive.

(** *** Administration *)

Definition addProvider (_provider : address) (env : Env) : M unit :=
  onlyOwner env ;;
  store (fun s => set_isProvider (<[_provider := true]> (isProvider s)) s) ;;
  emit (Event.ProviderAdded _provider).

Definition removeProvider (_provider : address) (env : Env) : M unit :=
  onlyOwner env ;;
  store (fun s => set_isProvider (delete _provider (isProvider s)) s) ;;
  emit (Event.ProviderRemoved _provider).

Definition pause (env : Env) : M unit :=
  onlyOwner env ;;
  whenNotPaused ;;
  store (set_paused true) ;;
  emit (Event.Paused (msg_sender env)).

Definition unpause (env : Env) : M unit :=
  onlyOwner env ;;
  store (set_paused false) ;;
  emit (Event.Unpaused (msg_sender env)).

Definition setCooldownSeconds (_cooldownSeconds : uint256) (env : Env) : M unit :=
  onlyOwner env ;;
  do s <- load;
  emit (Event.CooldownSet (cooldownSeconds s) _cooldownSeconds) ;;
  store (set_cooldownSeconds _cooldownSeconds).

(** *** Batches *)

(** [batches[id].f = v] *)
Definition write_batch (id : uint256) (f : Batch -> Batch) : M unit :=
  store (fun s => set_batches (<[id := f (rd (batches s) id)]> (batches s)) s).

Definition openBatch (env : Env) : M unit :=
  onlyOwner env ;;
  do s <- load;
  do next <- checked_add (currentBatchId s) 1;
  store (set_currentBatchId next) ;;
  write_batch next (set_isOpen true) ;;
  write_batch next (set_numNFTs 0) ;;
  emit (Event.BatchOpened next).

Definition closeBatch (env : Env) : M unit :=
  onlyOwner env ;;
  do s <- load;
  revert_if (negb (isOpen (rd (batches s) (currentBatchId s)))) Error.BatchClosed ;;
  write_batch (currentBatchId s) (set_isOpen false) ;;
  emit (Event.BatchClosed (currentBatchId s)).

Definition submitNFT (_attr1 _attr2 _attr3 : euint32) (env : Env) : M unit :=
  onlyProvider env ;;
  whenNotPaused ;;
  checkCooldown true env ;;
  do s <- load;
  let cur := currentBatchId s in
  revert_if (negb (isOpen (rd (batches s) cur))) Error.BatchClosed ;;
  revert_if (negb (FHE.isInitialized _attr1) || negb (FHE.isInitialized _attr2)
             || negb (FHE.isInitialized _attr3)) Error.NotInitialized ;;
  let nftIndex := numNFTs (rd (batches s) cur) in
  write_batch cur (fun b => set_nftOwners (<[nftIndex := msg_sender env]> (nftOwners b)) b) ;;
  write_batch cur (fun b =>
    set_nftData (<[nftIndex := {| attr1 := _attr1; attr2 := _attr2; attr3 := _attr3;
                                  initialized := true |}]> (nftData b)) b) ;;
  do n <- checked_add nftIndex 1;
  write_batch cur (set_numNFTs n) ;;
  store (fun s => set_lastSubmissionTime
                    (<[msg_sender env := block_timestamp env]> (lastSubmissionTime s)) s) ;;
  emit (Event.NFTSubmitted (msg_sender env) nftIndex cur).

(** *** Averaging

    The loop both [fuseNFTs] and [myCallback] run: [n] more rounds from
    index [i], adding the three attributes of every entry to the running
    sums; [None] when an entry is not initialized ([InvalidNFT]). *)
Fixpoint sumAttributes (n : nat) (i : uint256) (batch : Batch)
    (sums : euint32 * euint32 * euint32) : option (euint32 * euint32 * euint32) :=
  match n with
  | O => Some sums
  | S n' =>
      let nft := rd (nftData batch) i in
      if negb (initialized nft) then None
      else
        let '(attr1_sum, attr2_sum, attr3_sum) := sums in
        sumAttributes n' (i + 1) batch
          (FHE.add attr1_sum (attr1 nft),
           FHE.add attr2_sum (attr2 nft),
           FHE.add attr3_sum (attr3 nft))
  end.

(** The three averaged handles: the sums, from encrypted zeros, divided
    by the encrypted entry count. *)
Definition averageHandles (batch : Batch) : option (euint32 * euint32 * euint32) :=
  let zero32 := FHE.asEuint32 0 in
  match sumAttributes (Z.to_nat (numNFTs batch)) 0 batch (zero32, zero32, zero32) with
  | None => None
  | Some (attr1_sum, attr2_sum, attr3_sum) =>
      let count := FHE.asEuint32 (numNFTs batch) in
      Some (FHE.div attr1_sum count, FHE.div attr2_sum count, FHE.div attr3_sum count)
  end.

(** ... and as the array [cts]. *)
Definition averageCiphertexts (batch : Batch) : option (list bytes32) :=
  match averageHandles batch with
  | None => None
  | Some (attr1_sum, attr2_sum, attr3_sum) =>
      Some [FHE.toBytes32 attr1_sum; FHE.toBytes32 attr2_sum; FHE.toBytes32 attr3_sum]
  end.

Definition _hashCiphertexts (cts : list bytes32) : bytes32 :=
  keccak256 (abi_encode cts this).

Definition average (batch : Batch) : M (list bytes32) :=
  match averageCiphertexts batch with
  | None => revert Error.InvalidNFT
  | Some cts => ret cts
  end.

(** *** Fusion request *)

Definition fuseNFTs (_batchId : uint256) (env : Env) : M unit :=
  onlyProvider env ;;
  whenNotPaused ;;
  checkCooldown false env ;;
  do s <- load;
  revert_if ((_batchId =? 0) || (_batchId >? currentBatchId s)) Error.InvalidBatch ;;
  let batch := rd (batches s) _batchId in
  revert_if (numNFTs batch <? 2) Error.NotEnoughNFTs ;;
  do cts <- average batch;
  let stateHash := _hashCiphertexts cts in
  external (RequestDecryption cts) ;;
  let requestId := requestId env in
  store (fun s => set_decryptionContexts
                    (<[requestId := {| batchId := _batchId; stateHash := stateHash;
                                       processed := false |}]> (decryptionContexts s)) s) ;;
  store (fun s => set_lastRequestTime
                    (<[msg_sender env := block_timestamp env]> (lastRequestTime s)) s) ;;
  emit (Event.FusionRequested requestId _batchId stateHash).

(** *** Oracle callback *)

(** Big-endian value of a byte string. *)
Definition be_value (bs : list byte) : Z :=
  fold_left (fun acc b => acc * 256 + Z.of_N (Byte.to_N b)) bs 0.

(** [abi.decode(data, (uint256))]: the first 32-byte word. *)
Definition abi_decode_uint256 (data : list byte) : M uint256 :=
  if (length data <? 32)%nat then revert Error.DecodeFailure
  else ret (be_value (firstn 32 data)).

(** [data[start:]] *)
Definition slice_from (start : nat) (data : list byte) : M (list byte) :=
  if (length data <? start)%nat then revert Error.DecodeFailure
  else ret (skipn start data).

(** The [k]-th 32-byte word of [data], as [uint256]. *)
Definition word (k : nat) (data : list byte) : uint256 :=
  be_value (firstn 32 (skipn (32 * k) data)).

Definition myCallback (requestId : uint256) (cleartexts proof : list byte) : M unit :=
  do s <- load;
  let ctx := rd (decryptionContexts s) requestId in
  revert_if (processed ctx) Error.ReplayAttempt ;;
  let batch := rd (batches s) (batchId ctx) in
  do cts <- average batch;
  let currentHash := _hashCiphertexts cts in
  revert_if (negb (currentHash =? stateHash ctx)) Error.StateMismatch ;;
  revert_if (negb (FHE.checkSignatures requestId cleartexts proof)) Error.LibraryRevert ;;
  do attr1 <- abi_decode_uint256 cleartexts;
  do tail1 <- slice_from 32 cleartexts;
  do attr2 <- abi_decode_uint256 tail1;
  do tail2 <- slice_from 64 cleartexts;
  do attr3 <- abi_decode_uint256 tail2;
  do tokenId <- checked_add (lastTokenId s) 1;
  store (set_lastTokenId tokenId) ;;
  store (fun s => set_decryptionContexts
                    (<[requestId := set_processed true (rd (decryptionContexts s) requestId)]>
                       (decryptionContexts s)) s) ;;
  emit (Event.FusionCompleted requestId (batchId ctx) tokenId (attr1, attr2, attr3)).

(** ** Transactions *)

Inductive Call :=
| AddProvider (_provider : address)
| RemoveProvider (_provider : address)
| Pause
| Unpause
| SetCooldownSeconds (_cooldownSeconds : uint256)
| OpenBatch
| CloseBatch
| SubmitNFT (_attr1 _attr2 _attr3 : euint32)
| FuseNFTs (_batchId : uint256)
| MyCallback (requestId : uint256) (cleartexts proof : list byte).

Definition body (c : Call) (env : Env) : M unit :=
  match c with
  | AddProvider p => addProvider p env
  | RemoveProvider p => removeProvider p env
  | Pause => pause env
  | Unpause => unpause env
  | SetCooldownSeconds n => setCooldownSeconds n env
  | OpenBatch => openBatch env
  | CloseBatch => closeBatch env
  | SubmitNFT a1 a2 a3 => submitNFT a1 a2 a3 env
  | FuseNFTs b => fuseNFTs b env
  | MyCallback r cleartexts proof => myCallback r cleartexts proof
  end.

(** What the chain keeps of a call: on success the storage and the
    effects; on a revert only the error, the storage being what it was. *)
Inductive Receipt :=
| Committed (s : State) (l : list Effect)
| Reverted (e : Error.t).

Definition transact (c : Call) (env : Env) (s : State) : Receipt :=
  match body c env s with
  | Ret _ s' l => Committed s' l
  | Rev e _ => Reverted e
  end.

(** The storage after the call. *)
Definition storage_after (c : Call) (env : Env) (s : State) : State :=
  match transact c env s with
  | Committed s' _ => s'
  | Reverted _ => s
  end.

Definition effects_of (c : Call) (env : Env) (s : State) : list Effect :=
  match transact c env s with
  | Committed _ l => l
  | Reverted _ => []
  end.

(** A sequence of calls, each in its own context. *)
Fixpoint run (tr : list (Call * Env)) (s : State) : State :=
  match tr with
  | [] => s
  | (c, env) :: tr' => run tr' (storage_after c env s)
  end.

(** The states the deployed contract can be in. *)
Inductive reachable : State -> Prop :=
| reachable_deploy deployer : reachable (constructor deployer)
| reachable_call s c env : reachable s -> reachable (storage_after c env s).

End Contract.

(** ** Three shapes of computation

    [readonly]: leaves the storage as found, whether it returns or aborts.
    [quiet]: aborts, if at all, with an error the contract does not declare.
    [atomic]: when it aborts with a declared error, nothing was written. *)
Definition readonly {A} (m : M A) : Prop :=
  forall s, match m s with Ret _ s' _ => s' = s | Rev _ s' => s' = s end.

Definition quiet {A} (m : M A) : Prop :=
  forall s, match m s with Ret _ _ _ => True | Rev e _ => Error.named e = false end.

Definition atomic {A} (m : M A) : Prop :=
  forall s, match m s with
            | Ret _ _ _ => True
            | Rev e s' => Error.named e = true -> s' = s
            end.

(** ** Plaintext sums

    The sum, over the integers, of the plaintexts of one attribute of the
    [n] entries from index [i]. *)
Fixpoint plainSum {L : FHE.Lib} {S : FHE.Semantics L} (attr : NFTData -> euint32)
    (n : nat) (i : Z) (batch : Batch) : Z :=
  match n with
  | O => 0
  | S n' => FHE.decrypt (attr (rd (nftData batch) i)) + plainSum attr n' (i + 1) batch
  end.

(** Adding an effect in front of what a computation produced. *)
Definition prepend {A} (x : Effect) (r : Res A) : Res A :=
  match r with
  | Ret a s l => Ret a s (x :: l)
  | Rev e s => Rev e s
  end.

(** The cooldown guard of [checkCooldown] passes for the caller of [env],
    [last] being the timestamp mapping it reads. *)
Definition cooldownOver (last : gmap Z uint256) (s : State) (env : Env) : Prop :=
  rd last (msg_sender env) + cooldownSeconds s <= MAX_UINT256 /\
  rd last (msg_sender env) + cooldownSeconds s <= block_timestamp env.

(** ** The cleartexts of the decryption oracle

    The oracle answers a request with the ABI encoding of the plaintexts of
    the handles it was asked to decrypt: one 32-byte word for each, most
    significant byte first. This is the encoding that [abi.decode] reads
    back in [myCallback]. *)
Definition byte_of (v : Z) : byte :=
  default x00 (Byte.of_N (Z.to_N (v mod 256))).

Fixpoint be_bytes (n : nat) (v : Z) : list byte :=
  match n with
  | O => []
  | S n' => be_bytes n' (v / 256) ++ [byte_of v]
  end.

Definition abi_encode_uint256 (v : uint256) : list byte := be_bytes 32 v.

Definition abi_encode_uint256s (vs : list uint256) : list byte :=
  concat (map abi_encode_uint256 vs).

(** ** The shape of reachable storage

    Batch ids run from 2 (the constructor starts the counter at 1 and
    [openBatch] increments before it writes); batches beyond the current id
    are untouched; every entry below a batch's count is initialized. *)
Record wellFormed (s : State) : Prop := {
  wf_current : 1 <= currentBatchId s <= MAX_UINT256;
  wf_future : forall b, currentBatchId s < b -> batches s !! b = None;
  wf_first : forall b, b < 2 -> batches s !! b = None;
  wf_count : forall b, 0 <= numNFTs (rd (batches s) b);
  wf_entries : forall b i,
    0 <= i < numNFTs (rd (batches s) b) ->
    initialized (rd (nftData (rd (batches s) b)) i) = true
}.

(** ** A plaintext stand-in for the imports

    Handles that carry their plaintext (shifted by one, so that zero stays
    the uninitialized handle), and a polynomial hash: enough to run the
    contract on concrete inputs. *)
Module Plain.
Definition handle (v : Z) : euint32 := v + 1.
Definition plain (h : euint32) : Z := h - 1.

Definition lib : FHE.Lib :=
  {| FHE.asEuint32 n := handle (n mod 2 ^ 32);
     FHE.add a b := handle ((plain a + plain b) mod 2 ^ 32);
     FHE.div a b := handle (plain a / plain b);
     FHE.isInitialized h := negb (h =? 0);
     FHE.toBytes32 h := h;
     FHE.checkSignatures _ _ proof := negb (length proof =? 0)%nat |}.

Definition evm : EVM :=
  {| keccak256 ws := fold_left (fun acc w => (acc * 1000003 + w + 1) mod 2 ^ 256) ws 7;
     this := 3735928559 |}.
End Plain.



(** * The client codec ([frontend/web/src/App.tsx])

    JavaScript strings are lists of characters below 256, which is all
    the codec produces and all [btoa] accepts; a Number holding an integer
    is that integer. *)

Definition jsstring := list ascii.

Record NFTAttribute := {
  attack : Z;
  defense : Z;
  speed : Z;
  rarity : Z
}.

(** [Number.isSafeInteger]: the integers a Number holds exactly. *)
Definition MAX_SAFE_INTEGER : Z := 2 ^ 53 - 1.
Definition isSafeInteger (z : Z) : bool :=
  (- MAX_SAFE_INTEGER <=? z) && (z <=? MAX_SAFE_INTEGER).

(** ** Numbers and strings *)

(** The template literal [`${n}`] for an integer [n]: its decimal digits,
    after a minus sign when it is negative (the form Number::toString has
    below 10^21). *)
Definition NumberToString (n : Z) : jsstring :=
  list_ascii_of_string (DecimalString.NilZero.string_of_int (Z.to_int n)).

(** The white space [Number(s)] trims from both ends. *)
Definition isStrWhiteSpace (c : ascii) : bool :=
  let n := N_of_ascii c in
  ((9 <=? n) && (n <=? 13) || (n =? 32) || (n =? 160))%N.

Fixpoint dropWhile (p : ascii -> bool) (s : jsstring) : jsstring :=
  match s with
  | c :: s' => if p c then dropWhile p s' else s
  | [] => []
  end.

Definition trim (s : jsstring) : jsstring :=
  rev (dropWhile isStrWhiteSpace (rev (dropWhile isStrWhiteSpace s))).

Definition digitValue (c : ascii) : option Z :=
  let n := N_of_ascii c in
  if ((48 <=? n) && (n <=? 57))%N then Some (Z.of_N n - 48) else None.

(** The value of a run of decimal digits, most significant first. *)
Fixpoint digitsValue (s : jsstring) (acc : Z) : option Z :=
  match s with
  | [] => Some acc
  | c :: s' =>
      match digitValue c with
      | Some d => digitsValue s' (10 * acc + d)
      | None => None
      end
  end.

(** [Number(s)], on the strings whose value is a safe integer written as
    decimal digits with an optional sign, and on the empty string (zero).
    [None] stands for every other result: NaN, and the values of literals
    with a fraction, an exponent, a radix prefix, [Infinity], or digits
    beyond the safe range. *)
Definition StringToNumber (s : jsstring) : option Z :=
  let signed (sign : Z) (digits : jsstring) : option Z :=
    match digits with
    | [] => None
    | _ => option_map (Z.mul sign) (digitsValue digits 0)
    end in
  let value :=
    match trim s with
    | [] => Some 0
    | c :: rest =>
        if Ascii.eqb c "-"%char then signed (-1) rest
        else if Ascii.eqb c "+"%char then signed 1 rest
        else signed 1 (c :: rest)
    end in
  match value with
  | Some z => if isSafeInteger z then Some z else None
  | None => None
  end.

(** [s.split(',')] *)
Fixpoint split_comma (s : jsstring) : list jsstring :=
  match s with
  | [] => [[]]
  | c :: s' =>
      if Ascii.eqb c ","%char then [] :: split_comma s'
      else
        match split_comma s' with
        | first :: rest => (c :: first) :: rest
        | [] => [[c]]
        end
  end.

(** ** Base64 *)

Definition sextet (n : N) : Prop := (n < 64)%N.
Definition octet (n : N) : Prop := (n < 256)%N.

Definition base64_alphabet : jsstring :=
  list_ascii_of_string
    "ABCDEFGHIJKLMNOPQRSTUVWXYZabcdefghijklmnopqrstuvwxyz0123456789+/".

Definition base64_char (n : N) : ascii :=
  nth (N.to_nat n) base64_alphabet "="%char.

Fixpoint index_of (c : ascii) (l : jsstring) (i : N) : option N :=
  match l with
  | [] => None
  | x :: l' => if Ascii.eqb c x then Some i else index_of c l' (i + 1)%N
  end.

Definition base64_value (c : ascii) : option N := index_of c base64_alphabet 0%N.

(** Three bytes make four 6-bit groups; one or two trailing bytes make two
    or three. *)
Fixpoint sextets_of_bytes (l : list N) : list N :=
  (match l with
   | a :: b :: c :: rest =>
       a / 4 :: (a mod 4) * 16 + b / 16 :: (b mod 16) * 4 + c / 64 :: c mod 64
         :: sextets_of_bytes rest
   | [a; b] => [a / 4; (a mod 4) * 16 + b / 16; (b mod 16) * 4]
   | [a] => [a / 4; (a mod 4) * 16]
   | [] => []
   end)%N.

Definition base64_padding (n : nat) : jsstring :=
  match (n mod 3)%nat with
  | 1%nat => ["="; "="]%char
  | 2%nat => ["="]%char
  | _ => []
  end.

(** [btoa(s)] *)
Definition btoa (s : jsstring) : jsstring :=
  map base64_char (sextets_of_bytes (map N_of_ascii s)) ++ base64_padding (length s).

(** Four 6-bit groups make three bytes; the bits left over in a final
    group of two or three are dropped. *)
Fixpoint bytes_of_sextets (l : list N) : list N :=
  (match l with
   | a :: b :: c :: d :: rest =>
       a * 4 + b / 16 :: (b mod 16) * 16 + c / 4 :: (c mod 4) * 64 + d
         :: bytes_of_sextets rest
   | [a; b; c] => [a * 4 + b / 16; (b mod 16) * 16 + c / 4]
   | [a; b] => [a * 4 + b / 16]
   | _ => []
   end)%N.

Definition isAsciiWhitespace (c : ascii) : bool :=
  let n := N_of_ascii c in
  ((n =? 9) || (n =? 10) || (n =? 12) || (n =? 13) || (n =? 32))%N.

(** One ["="] less at the end, when there is one. *)
Definition drop_padding_char (s : jsstring) : jsstring :=
  match rev s with
  | c :: r => if Ascii.eqb c "="%char then rev r else s
  | [] => s
  end.

(** When the length is a multiple of four, one or two ["="] at the end go. *)
Definition strip_padding (s : jsstring) : jsstring :=
  if (length s mod 4 =? 0)%nat then drop_padding_char (drop_padding_char s) else s.

Fixpoint base64_values (s : jsstring) : option (list N) :=
  match s with
  | [] => Some []
  | c :: s' =>
      match base64_value c, base64_values s' with
      | Some v, Some vs => Some (v :: vs)
      | _, _ => None
      end
  end.

(** [atob(s)]; [None] when it throws [InvalidCharacterError]. *)
Definition atob (s : jsstring) : option jsstring :=
  let data := strip_padding (List.filter (fun c => negb (isAsciiWhitespace c)) s) in
  if (length data mod 4 =? 1)%nat then None
  else
    match base64_values data with
    | None => None
    | Some vs => Some (map ascii_of_N (bytes_of_sextets vs))
    end.

(** ** The two codec functions *)

Definition tag : jsstring := list_ascii_of_string "FHE-".

(** [s.startsWith(p)] *)
Fixpoint startsWith (p s : jsstring) : bool :=
  match p, s with
  | [], _ => true
  | c :: p', d :: s' => Ascii.eqb c d && startsWith p' s'
  | _ :: _, [] => false
  end.

Definition comma : jsstring := [","%char].

Definition FHEEncryptAttributes (attributes : NFTAttribute) : jsstring :=
  let data :=
    NumberToString (attack attributes) ++ comma ++
    NumberToString (defense attributes) ++ comma ++
    NumberToString (speed attributes) ++ comma ++
    NumberToString (rarity attributes) in
  tag ++ btoa data.

(** What [FHEDecryptAttributes] does: it returns a record of four integers,
    or a record with a field that is not one ([undefined] for a missing
    part, or a part on which [StringToNumber] is [None]), or [atob] throws. *)
Inductive Decrypted :=
| Attributes (a : NFTAttribute)
| NotIntegers
| Throws.

Definition FHEDecryptAttributes (encryptedData : jsstring) : Decrypted :=
  if startsWith tag encryptedData then
    match atob (skipn 4 encryptedData) with
    | None => Throws
    | Some decrypted =>
        let parts := map StringToNumber (split_comma decrypted) in
        match parts with
        | Some attack :: Some defense :: Some speed :: Some rarity :: _ =>
            Attributes {| attack := attack; defense := defense;
                          speed := speed; rarity := rarity |}
        | _ => NotIntegers
        end
    end
  else Attributes {| attack := 0; defense := 0; speed := 0; rarity := 0 |}.

(** * A concrete run

    The contract over the plaintext stand-in: the deployer (address 1)
    registers a second provider (address 2) and opens batch 2, both submit,
    and the deployer asks for the fusion, which the oracle fulfils under
    request id 7. *)
Module Demo.

Definition semantics : FHE.Semantics Plain.lib.
Proof.
  refine {| FHE.decrypt := Plain.plain |}; cbn; unfold Plain.plain, Plain.handle; intros; lia.
Defined.

Definition at_ (sender timestamp rid : Z) : Env :=
  {| msg_sender := sender; block_timestamp := timestamp; requestId := rid |}.

Definition h (v : Z) : euint32 := Plain.handle v.

Definition run := run (L := Plain.lib) (E := Plain.evm).
Definition transact := transact (L := Plain.lib) (E := Plain.evm).

Definition deployed : State := constructor 1.

Definition setup : list (Call * Env) :=
  [(AddProvider 2, at_ 1 50 0); (OpenBatch, at_ 1 60 0)].

Definition submissions : list (Call * Env) :=
  [(SubmitNFT (h 10) (h 20) (h 30), at_ 1 100 0);
   (SubmitNFT (h 13) (h 25) (h 31), at_ 2 110 0)].

Definition request : list (Call * Env) := [(FuseNFTs 2, at_ 1 200 7)].

(** The three averages 11, 22 and 30, one 32-byte word each. *)
Definition cleartexts : list byte :=
  repeat x00 31 ++ [x0b] ++ repeat x00 31 ++ [x16] ++ repeat x00 31 ++ [x1e].

Definition proof : list byte := [x01].

Definition fulfilment : list (Call * Env) :=
  [(MyCallback 7 cleartexts proof, at_ 9 300 0)].

Definition late_submission : list (Call * Env) :=
  [(SubmitNFT (h 100) (h 100) (h 100), at_ 1 400 0)].

Definition opened : State := run setup deployed.
Definition submitted : State := run submissions opened.
Definition requested : State := run request submitted.
Definition fulfilled : State := run fulfilment requested.

(** A third entry arrives after the request, before the callback ... *)
Definition tampered : State := run late_submission requested.

(** ... or after it. *)
Definition extended : State := run late_submission fulfilled.

End Demo.

(** * Further definitions

    The calls only the owner may make, the effects of a whole sequence of
    calls, and what a pending request points to. *)

(** The functions that carry [onlyOwner]. *)
Definition isOwnerCall (c : Call) : bool :=
  match c with
  | AddProvider _ | RemoveProvider _ | Pause | Unpause | SetCooldownSeconds _
  | OpenBatch | CloseBatch => true
  | SubmitNFT _ _ _ | FuseNFTs _ | MyCallback _ _ _ => false
  end.

Section Traces.
Context {L : FHE.Lib} {E : EVM}.

(** Everything a sequence of calls emits and requests, in order. *)
Fixpoint effects_run (tr : list (Call * Env)) (s : State) : list Effect :=
  match tr with
  | [] => []
  | (c, env) :: tr' => effects_of c env s ++ effects_run tr' (storage_after c env s)
  end.

End Traces.

(** The token ids of the [FusionCompleted] events among some effects. *)
Fixpoint completedTokenIds (l : list Effect) : list uint256 :=
  match l with
  | [] => []
  | Emit (Event.FusionCompleted _ _ newTokenId _) :: l' => newTokenId :: completedTokenIds l'
  | _ :: l' => completedTokenIds l'
  end.

(** [first; first + 1; ...], [n] of them. *)
Fixpoint consecutive (first : Z) (n : nat) : list Z :=
  match n with
  | O => []
  | S n' => first :: consecutive (first + 1) n'
  end.

(** Every recorded request that is still pending points to an opened batch
    that holds at least two entries. *)
Definition pendingValid (s : State) : Prop :=
  forall r c,
    decryptionContexts s !! r = Some c -> processed c = false ->
    2 <= batchId c <= currentBatchId s /\
    2 <= numNFTs (rd (batches s) (batchId c)).

(** * The dashboard ([frontend/web/src/App.tsx])

    The figures the page derives from the loaded fusion records. *)
Module Dashboard.

Record OutputNFT := {
  encryptedAttributes : jsstring;
  name : jsstring;
  image : jsstring
}.

Record FusionRecord := {
  id : jsstring;
  inputNFTs : list jsstring;
  outputNFT : OutputNFT;
  timestamp : Z;
  owner : jsstring;
  fusionCost : Z
}.

Definition fusionCount (fusions : list FusionRecord) : nat := length fusions.


(** [address] is [undefined] while no wallet is connected. *)
Definition userFusionCount (address : option jsstring) (fusions : list FusionRecord) : nat :=
  length (List.filter (fun f => bool_decide (Some (owner f) = address)) fusions).

(** The keys for which a JavaScript object behaves as a plain dictionary
    that lists its keys in the order of first insertion: not an array index
    (those are listed first, in numeric order) and not the name of a
    property inherited from [Object.prototype] (those read as something
    other than [undefined] before they are ever set). *)
Definition isDigit (c : ascii) : bool :=
  let n := N_of_ascii c in ((48 <=? n) && (n <=? 57))%N.

Definition isArrayIndex (k : jsstring) : bool :=
  match k with
  | [] => false
  | c :: rest =>
      forallb isDigit k
      && (negb (Ascii.eqb c "0"%char) || match rest with [] => true | _ => false end)
      && match digitsValue k 0 with
         | Some v => v <=? 4294967294
         | None => false
         end
  end.

Definition prototypeKeys : list jsstring :=
  map list_ascii_of_string
    ["constructor"; "__proto__"; "__defineGetter__"; "__defineSetter__";
     "__lookupGetter__"; "__lookupSetter__"; "hasOwnProperty"; "isPrototypeOf";
     "propertyIsEnumerable"; "toLocaleString"; "toString"; "valueOf"]%string.

Definition plainKey (k : jsstring) : bool :=
  negb (isArrayIndex k) && negb (existsb (fun p => bool_decide (p = k)) prototypeKeys).

(** [acc[owner] = (acc[owner] || 0) + 1], the entries of [acc] in
    insertion order. *)
Fixpoint bump (acc : list (jsstring * Z)) (o : jsstring) : list (jsstring * Z) :=
  match acc with
  | [] => [(o, 1)]
  | (k, n) :: rest =>
      if bool_decide (k = o) then (k, n + 1) :: rest else (k, n) :: bump rest o
  end.

(** [Object.entries(leaderboard)] as (address, count) pairs. *)
Definition leaderboard (fusions : list FusionRecord) : list (jsstring * Z) :=
  fold_left (fun acc fusion => bump acc (owner fusion)) fusions [].

(** [sort((a, b) => b.count - a.count)]: descending by count, entries with
    equal counts in their previous order (the sort is stable). *)
Fixpoint insertByCount (x : jsstring * Z) (l : list (jsstring * Z)) : list (jsstring * Z) :=
  match l with
  | [] => [x]
  | y :: l' => if snd x <? snd y then y :: insertByCount x l' else x :: l
  end.

Definition sortByCount (l : list (jsstring * Z)) : list (jsstring * Z) :=
  fold_right insertByCount [] l.

Definition sortedLeaderboard (fusions : list FusionRecord) : list (jsstring * Z) :=
  firstn 10 (sortByCount (leaderboard fusions)).

(** The count a board shows for an address, zero when it is not listed. *)
Fixpoint countOf (board : list (jsstring * Z)) (a : jsstring) : Z :=
  match board with
  | [] => 0
  | (k, n) :: rest => if bool_decide (k = a) then n else countOf rest a
  end.

Definition descending (l : list (jsstring * Z)) : Prop :=
  StronglySorted (fun x y => snd y <= snd x) l.

(** Three loaded records, two owned by one address. *)
Definition alice : jsstring := list_ascii_of_string "0xa11ce".
Definition bob : jsstring := list_ascii_of_string "0xb0b".

Definition record (key : string) (o : jsstring) (t : Z) : FusionRecord :=
  {| id := list_ascii_of_string key;
     inputNFTs := [];
     outputNFT := {| encryptedAttributes := []; name := []; image := [] |};
     timestamp := t;
     owner := o;
     fusionCost := 10 |}.

Definition sample : list FusionRecord :=
  [record "k3" alice 300; record "k2" bob 200; record "k1" alice 100].

End Dashboard.
(** * Properties of the contract *)

Section ContractFacts.
Context {L : FHE.Lib} {E : EVM}.

Lemma rd_insert_eq {A} `{Zero A} (m : gmap Z A) k v : rd (<[k := v]> m) k = v.
Proof. unfold rd. by rewrite lookup_insert_eq. Qed.

Lemma rd_insert_ne {A} `{Zero A} (m : gmap Z A) k k' v :
  k <> k' -> rd (<[k := v]> m) k' = rd m k'.
Proof. intros. unfold rd. by rewrite lookup_insert_ne. Qed.

Lemma rd_None {A} `{Zero A} (m : gmap Z A) k : m !! k = None -> rd m k = zero.
Proof. intros Hk. unfold rd. by rewrite Hk. Qed.

Lemma readonly_bind {A B} (m : M A) (f : A -> M B) :
  readonly m -> (forall a, readonly (f a)) -> readonly (bind m f).
Proof.
  intros Hm Hf s. unfold bind. specialize (Hm s).
  destruct (m s) as [a s1 l1|e s1]; subst; [|done].
  specialize (Hf a s). by destruct (f a s).
Qed.

Lemma quiet_bind {A B} (m : M A) (f : A -> M B) :
  quiet m -> (forall a, quiet (f a)) -> quiet (bind m f).
Proof.
  intros Hm Hf s. unfold bind. specialize (Hm s).
  destruct (m s) as [a s1 l1|e s1]; [|done].
  specialize (Hf a s1). by destruct (f a s1).
Qed.

Lemma atomic_bind_readonly {A B} (m : M A) (f : A -> M B) :
  readonly m -> (forall a, atomic (f a)) -> atomic (bind m f).
Proof.
  intros Hm Hf s. unfold bind. specialize (Hm s).
  destruct (m s) as [a s1 l1|e s1]; subst; [|done].
  specialize (Hf a s). by destruct (f a s).
Qed.

Lemma quiet_atomic {A} (m : M A) : quiet m -> atomic m.
Proof.
  intros Hm s. specialize (Hm s). destruct (m s); [done|congruence].
Qed.

Lemma readonly_atomic {A} (m : M A) : readonly m -> atomic m.
Proof. intros Hm s. specialize (Hm s). by destruct (m s). Qed.

Lemma readonly_load : readonly load.
Proof. by intros s. Qed.
Lemma readonly_ret {A} (a : A) : readonly (ret a).
Proof. by intros s. Qed.
Lemma readonly_revert {A} e : readonly (@revert A e).
Proof. by intros s. Qed.
Lemma readonly_revert_if c e : readonly (revert_if c e).
Proof. by destruct c; intros s. Qed.
Lemma readonly_emit e : readonly (emit e).
Proof. by intros s. Qed.
Lemma readonly_external x : readonly (external x).
Proof. by intros s. Qed.
Lemma readonly_checked_add x y : readonly (checked_add x y).
Proof. unfold checked_add. by destruct (_ >? _); intros s. Qed.
Lemma readonly_abi_decode_uint256 d : readonly (abi_decode_uint256 d).
Proof. unfold abi_decode_uint256. by destruct (_ <? _)%nat; intros s. Qed.
Lemma readonly_slice_from n d : readonly (slice_from n d).
Proof. unfold slice_from. by destruct (_ <? _)%nat; intros s. Qed.
Lemma readonly_average b : readonly (average b).
Proof. unfold average. by destruct (averageCiphertexts b); intros s. Qed.

Lemma quiet_load : quiet load.
Proof. by intros s. Qed.
Lemma quiet_ret {A} (a : A) : quiet (ret a).
Proof. by intros s. Qed.
Lemma quiet_store f : quiet (store f).
Proof. by intros s. Qed.
Lemma quiet_emit e : quiet (emit e).
Proof. by intros s. Qed.
Lemma quiet_external x : quiet (external x).
Proof. by intros s. Qed.
Lemma quiet_write_batch id f : quiet (write_batch id f).
Proof. by intros s. Qed.
Lemma quiet_checked_add x y : quiet (checked_add x y).
Proof. unfold checked_add. by destruct (_ >? _); intros s. Qed.
Lemma quiet_abi_decode_uint256 d : quiet (abi_decode_uint256 d).
Proof. unfold abi_decode_uint256. by destruct (_ <? _)%nat; intros s. Qed.
Lemma quiet_slice_from n d : quiet (slice_from n d).
Proof. unfold slice_from. by destruct (_ <? _)%nat; intros s. Qed.

Ltac readonly_tac :=
  repeat first
    [ apply readonly_bind; [|intros]
    | apply readonly_load | apply readonly_ret | apply readonly_revert
    | apply readonly_revert_if | apply readonly_emit | apply readonly_external
    | apply readonly_checked_add | apply readonly_abi_decode_uint256
    | apply readonly_slice_from | apply readonly_average ].

Ltac quiet_tac :=
  repeat first
    [ apply quiet_bind; [|intros]
    | apply quiet_load | apply quiet_ret | apply quiet_store | apply quiet_emit
    | apply quiet_external | apply quiet_write_batch | apply quiet_checked_add
    | apply quiet_abi_decode_uint256 | apply quiet_slice_from ].

Lemma readonly_onlyOwner env : readonly (onlyOwner env).
Proof. unfold onlyOwner. readonly_tac. Qed.
Lemma readonly_onlyProvider env : readonly (onlyProvider env).
Proof. unfold onlyProvider. readonly_tac. Qed.
Lemma readonly_whenNotPaused : readonly whenNotPaused.
Proof. unfold whenNotPaused. readonly_tac. Qed.
Lemma readonly_checkCooldown b env : readonly (checkCooldown b env).
Proof. unfold checkCooldown. readonly_tac. Qed.

(** Peel the read-only prefix of a body, then show the rest raises no
    declared error. *)
Ltac atomic_tac :=
  repeat first
    [ apply atomic_bind_readonly;
      [ solve [ apply readonly_onlyOwner | apply readonly_onlyProvider
              | apply readonly_whenNotPaused | apply readonly_checkCooldown
              | readonly_tac ] | intros ]
    | apply quiet_atomic; solve [quiet_tac] ].

(** No statement of the contract writes storage before a point where it
    can raise one of its declared errors. *)
Lemma atomic_body c env : atomic (body c env).
Proof.
  destruct c; cbn [body];
    unfold addProvider, removeProvider, pause, unpause, setCooldownSeconds,
      openBatch, closeBatch, submitNFT, fuseNFTs, myCallback;
    atomic_tac.
Qed.

(** *** Running a body backwards from its result *)

Lemma bind_Ret {A B} (m : M A) (f : A -> M B) s b s2 l :
  bind m f s = Ret b s2 l ->
  exists a s1 l1 l2, m s = Ret a s1 l1 /\ f a s1 = Ret b s2 l2 /\ l = l1 ++ l2.
Proof.
  unfold bind. destruct (m s) as [a s1 l1|]; [|done].
  destruct (f a s1) as [b' s2' l2|] eqn:Hf; [|done].
  intros [= -> -> <-]. by exists a, s1, l1, l2.
Qed.

Lemma bind_Rev {A B} (m : M A) (f : A -> M B) s e s2 :
  bind m f s = Rev e s2 ->
  m s = Rev e s2 \/ exists a s1 l1, m s = Ret a s1 l1 /\ f a s1 = Rev e s2.
Proof.
  unfold bind. destruct (m s) as [a s1 l1|]; [|intros [= -> ->]; by left].
  destruct (f a s1) eqn:Hf; [done|].
  intros [= -> ->]. right. by exists a, s1, l1.
Qed.

Lemma revert_if_Ret c e s a s1 l :
  revert_if c e s = Ret a s1 l -> c = false /\ s1 = s /\ l = [].
Proof. destruct c; [done|]. by intros [= _ <- <-]. Qed.

Lemma checked_add_Ret x y s a s1 l :
  checked_add x y s = Ret a s1 l ->
  a = x + y /\ x + y <= MAX_UINT256 /\ s1 = s /\ l = [].
Proof.
  unfold checked_add. destruct (x + y >? MAX_UINT256) eqn:Hc; [done|].
  intros [= <- <- <-]. repeat split. lia.
Qed.

Lemma average_Ret b s cts s1 l :
  average b s = Ret cts s1 l -> averageCiphertexts b = Some cts /\ s1 = s /\ l = [].
Proof.
  unfold average. destruct (averageCiphertexts b); [|done].
  by intros [= <- <- <-].
Qed.

Lemma abi_decode_uint256_Ret d s v s1 l :
  abi_decode_uint256 d s = Ret v s1 l ->
  v = be_value (firstn 32 d) /\ (32 <= length d)%nat /\ s1 = s /\ l = [].
Proof.
  unfold abi_decode_uint256. destruct (length d <? 32)%nat eqn:Hc; [done|].
  intros [= <- <- <-]. repeat split. apply Nat.ltb_ge in Hc. lia.
Qed.

Lemma slice_from_Ret n d s v s1 l :
  slice_from n d s = Ret v s1 l ->
  v = skipn n d /\ (n <= length d)%nat /\ s1 = s /\ l = [].
Proof.
  unfold slice_from. destruct (length d <? n)%nat eqn:Hc; [done|].
  intros [= <- <- <-]. repeat split. apply Nat.ltb_ge in Hc. lia.
Qed.

(** Decompose [H : m s = Ret a s' l] along the binds of [m]. *)
Ltac inv_ret H :=
  cbv beta in H;
  lazymatch type of H with
  | bind _ _ _ = Ret _ _ _ =>
      let H1 := fresh "H" in let H2 := fresh "H" in
      apply bind_Ret in H; destruct H as (? & ? & ? & ? & H1 & H2 & ->);
      inv_ret H1; inv_ret H2
  | load _ = Ret _ _ _ => injection H as <- <- <-
  | ret _ _ = Ret _ _ _ => injection H as <- <- <-
  | store _ _ = Ret _ _ _ => injection H as <- <- <-
  | emit _ _ = Ret _ _ _ => injection H as <- <- <-
  | external _ _ = Ret _ _ _ => injection H as <- <- <-
  | write_batch _ _ _ = Ret _ _ _ => injection H as <- <- <-
  | revert _ _ = Ret _ _ _ => discriminate H
  | revert_if _ _ _ = Ret _ _ _ =>
      apply revert_if_Ret in H; destruct H as (H & -> & ->)
  | checked_add _ _ _ = Ret _ _ _ =>
      let Hb := fresh "Hbound" in
      apply checked_add_Ret in H; destruct H as (-> & Hb & -> & ->)
  | average _ _ = Ret _ _ _ =>
      apply average_Ret in H; destruct H as (H & -> & ->)
  | abi_decode_uint256 _ _ = Ret _ _ _ =>
      let Hb := fresh "Hlen" in
      apply abi_decode_uint256_Ret in H; destruct H as (-> & Hb & -> & ->)
  | slice_from _ _ _ = Ret _ _ _ =>
      let Hb := fresh "Hlen" in
      apply slice_from_Ret in H; destruct H as (-> & Hb & -> & ->)
  | onlyOwner _ _ = Ret _ _ _ => unfold onlyOwner in H; inv_ret H
  | onlyProvider _ _ = Ret _ _ _ => unfold onlyProvider in H; inv_ret H
  | whenNotPaused _ = Ret _ _ _ => unfold whenNotPaused in H; inv_ret H
  | checkCooldown _ _ _ = Ret _ _ _ => unfold checkCooldown in H; inv_ret H
  | _ => idtac
  end.

(** Boolean guards as propositions. *)
Ltac guards :=
  repeat match goal with
    | H : negb _ = false |- _ => apply negb_false_iff in H
    | H : negb _ = true |- _ => apply negb_true_iff in H
    | H : _ || _ = false |- _ => apply orb_false_iff in H; destruct H
    | H : (_ =? _) = true |- _ => apply Z.eqb_eq in H
    | H : (_ =? _) = false |- _ => apply Z.eqb_neq in H
    | H : (_ <? _) = false |- _ => apply Z.ltb_ge in H
    | H : (_ <? _) = true |- _ => apply Z.ltb_lt in H
    | H : (_ >? _) = false |- _ => rewrite Z.gtb_ltb in H
    end.

(** *** What each call writes to the batches *)

Lemma body_batches c env s u s' l :
  body c env s = Ret u s' l ->
  let cur := currentBatchId s in
  let b := rd (batches s) cur in
  match c with
  | OpenBatch =>
      msg_sender env = owner s /\ cur + 1 <= MAX_UINT256 /\
      currentBatchId s' = cur + 1 /\
      batches s' =
        <[cur + 1 := set_numNFTs 0 (set_isOpen true (rd (batches s) (cur + 1)))]> (batches s)
  | CloseBatch =>
      msg_sender env = owner s /\ isOpen b = true /\
      currentBatchId s' = cur /\
      batches s' = <[cur := set_isOpen false b]> (batches s)
  | SubmitNFT a1 a2 a3 =>
      isOpen b = true /\ numNFTs b + 1 <= MAX_UINT256 /\
      currentBatchId s' = cur /\
      batches s' =
        <[cur := {| isOpen := isOpen b;
                    numNFTs := numNFTs b + 1;
                    nftOwners := <[numNFTs b := msg_sender env]> (nftOwners b);
                    nftData := <[numNFTs b := {| attr1 := a1; attr2 := a2; attr3 := a3;
                                                 initialized := true |}]> (nftData b) |}]>
          (batches s)
  | _ => currentBatchId s' = cur /\ batches s' = batches s
  end.
Proof.
  intros H; destruct c; cbn [body] in H; cbn zeta;
    unfold addProvider, removeProvider, pause, unpause, setCooldownSeconds,
      openBatch, closeBatch, submitNFT, fuseNFTs, myCallback in H;
    inv_ret H; guards; cbn; try done.
  - (* openBatch *)
    repeat split; try done.
    by rewrite rd_insert_eq, insert_insert_eq.
  - (* submitNFT *)
    repeat split; try done.
    rewrite !rd_insert_eq, !insert_insert_eq. done.
Qed.

(** *** What each call writes to the decryption contexts and the token counter *)

Lemma body_contexts c env s u s' l :
  body c env s = Ret u s' l ->
  match c with
  | FuseNFTs b =>
      exists cts,
        averageCiphertexts (rd (batches s) b) = Some cts /\
        b <> 0 /\ b <= currentBatchId s /\
        2 <= numNFTs (rd (batches s) b) /\
        decryptionContexts s' =
          <[requestId env := {| batchId := b; stateHash := _hashCiphertexts cts;
                                processed := false |}]> (decryptionContexts s) /\
        lastTokenId s' = lastTokenId s /\
        l = [RequestDecryption cts;
             Emit (Event.FusionRequested (requestId env) b (_hashCiphertexts cts))]
  | MyCallback r cleartexts proof =>
      let ctx := rd (decryptionContexts s) r in
      exists cts,
        processed ctx = false /\
        averageCiphertexts (rd (batches s) (batchId ctx)) = Some cts /\
        _hashCiphertexts cts = stateHash ctx /\
        FHE.checkSignatures r cleartexts proof = true /\
        (96 <= length cleartexts)%nat /\
        lastTokenId s + 1 <= MAX_UINT256 /\
        decryptionContexts s' = <[r := set_processed true ctx]> (decryptionContexts s) /\
        lastTokenId s' = lastTokenId s + 1 /\
        l = [Emit (Event.FusionCompleted r (batchId ctx) (lastTokenId s + 1)
                     (word 0 cleartexts, word 1 cleartexts, word 2 cleartexts))]
  | _ => decryptionContexts s' = decryptionContexts s /\ lastTokenId s' = lastTokenId s
  end.
Proof.
  intros H; destruct c; cbn [body] in H;
    unfold addProvider, removeProvider, pause, unpause, setCooldownSeconds,
      openBatch, closeBatch, submitNFT, fuseNFTs, myCallback in H;
    inv_ret H; guards; cbn; try done.
  - (* fuseNFTs *)
    eexists; repeat split; try eassumption; try done; lia.
  - (* myCallback *)
    eexists; repeat split; try eassumption; try done.
    rewrite length_skipn in *. lia.
Qed.

(** *** Reachable storage is well formed *)

Lemma MAX_UINT256_large : 2 ^ 32 < MAX_UINT256.
Proof. reflexivity. Qed.

Lemma wellFormed_constructor deployer : wellFormed (constructor deployer).
Proof.
  pose proof MAX_UINT256_large.
  split; cbn; intros; rewrite ?lookup_empty; try done; try lia.
  rewrite (rd_None (A:=Batch) ∅ b) in * by apply lookup_empty. cbn in *. lia.
Qed.

Lemma wellFormed_frame s s' :
  currentBatchId s' = currentBatchId s -> batches s' = batches s ->
  wellFormed s -> wellFormed s'.
Proof. intros Hc Hb [? ? ? ? ?]. split; rewrite ?Hc, ?Hb; done. Qed.

Lemma isOpen_written s b : isOpen (rd (batches s) b) = true -> is_Some (batches s !! b).
Proof. unfold rd. destruct (batches s !! b); [eauto|done]. Qed.

Lemma wellFormed_body c env s u s' l :
  wellFormed s -> body c env s = Ret u s' l -> wellFormed s'.
Proof.
  intros Hwf Hb. apply body_batches in Hb. cbn zeta in Hb.
  destruct c; try (destruct Hb as [Hc Hb]; by eapply wellFormed_frame).
  - (* openBatch *)
    destruct Hb as (_ & Hmax & Hc & Hb). destruct Hwf as [Hcur Hfut Hfst Hcnt Hent].
    rewrite (rd_None _ (currentBatchId s + 1)) in Hb by (apply Hfut; lia). cbn in Hb.
    split; rewrite ?Hc, ?Hb.
    + lia.
    + intros b Hlt. rewrite lookup_insert_ne by lia. apply Hfut. lia.
    + intros b Hlt. rewrite lookup_insert_ne by lia. by apply Hfst.
    + intros b. destruct (decide (currentBatchId s + 1 = b)) as [<-|Hne].
      * by rewrite rd_insert_eq.
      * rewrite rd_insert_ne by done. apply Hcnt.
    + intros b i. destruct (decide (currentBatchId s + 1 = b)) as [<-|Hne].
      * rewrite rd_insert_eq. cbn. lia.
      * rewrite rd_insert_ne by done. apply Hent.
  - (* closeBatch *)
    destruct Hb as (_ & Hopen & Hc & Hb). destruct Hwf as [Hcur Hfut Hfst Hcnt Hent].
    apply isOpen_written in Hopen as [b0 Hb0].
    assert (2 <= currentBatchId s) as Hge.
    { destruct (decide (2 <= currentBatchId s)); [done|].
      rewrite Hfst in Hb0 by lia. done. }
    split; rewrite ?Hc, ?Hb.
    + done.
    + intros b Hlt. rewrite lookup_insert_ne by lia. by apply Hfut.
    + intros b Hlt. rewrite lookup_insert_ne by lia. by apply Hfst.
    + intros b. destruct (decide (currentBatchId s = b)) as [<-|Hne].
      * rewrite rd_insert_eq. apply Hcnt.
      * rewrite rd_insert_ne by done. apply Hcnt.
    + intros b i. destruct (decide (currentBatchId s = b)) as [<-|Hne].
      * rewrite rd_insert_eq. apply Hent.
      * rewrite rd_insert_ne by done. apply Hent.
  - (* submitNFT *)
    destruct Hb as (Hopen & Hmax & Hc & Hb). destruct Hwf as [Hcur Hfut Hfst Hcnt Hent].
    apply isOpen_written in Hopen as [b0 Hb0].
    assert (2 <= currentBatchId s) as Hge.
    { destruct (decide (2 <= currentBatchId s)); [done|].
      rewrite Hfst in Hb0 by lia. done. }
    split; rewrite ?Hc, ?Hb.
    + done.
    + intros b Hlt. rewrite lookup_insert_ne by lia. by apply Hfut.
    + intros b Hlt. rewrite lookup_insert_ne by lia. by apply Hfst.
    + intros b. destruct (decide (currentBatchId s = b)) as [<-|Hne].
      * rewrite rd_insert_eq. cbn. specialize (Hcnt (currentBatchId s)). lia.
      * rewrite rd_insert_ne by done. apply Hcnt.
    + intros b i. destruct (decide (currentBatchId s = b)) as [<-|Hne].
      * rewrite rd_insert_eq. cbn. intros Hi.
        destruct (decide (numNFTs (rd (batches s) (currentBatchId s)) = i)) as [<-|Hni].
        -- by rewrite rd_insert_eq.
        -- rewrite rd_insert_ne by done. apply Hent. lia.
      * rewrite rd_insert_ne by done. apply Hent.
Qed.

Lemma storage_after_cases c env s :
  storage_after c env s = s \/
  exists u l, body c env s = Ret u (storage_after c env s) l.
Proof.
  unfold storage_after, transact. destruct (body c env s) as [u s' l|]; eauto.
Qed.

Lemma wellFormed_step c env s : wellFormed s -> wellFormed (storage_after c env s).
Proof.
  intros Hwf. destruct (storage_after_cases c env s) as [->|(u & l & Hb)]; [done|].
  by eapply wellFormed_body.
Qed.

Lemma reachable_wellFormed s : reachable s -> wellFormed s.
Proof.
  induction 1; [apply wellFormed_constructor | by apply wellFormed_step].
Qed.

(** *** Running a body forwards *)

Lemma bind_load {B} (f : State -> M B) s : bind load f s = f s s.
Proof. unfold bind, load. by destruct (f s s). Qed.

Lemma bind_ret {A B} (a : A) (f : A -> M B) s : bind (ret a) f s = f a s.
Proof. unfold bind, ret. by destruct (f a s). Qed.

Lemma bind_store {B} g (f : unit -> M B) s : bind (store g) f s = f tt (g s).
Proof. unfold bind, store. by destruct (f tt (g s)). Qed.

Lemma bind_write_batch {B} id g (f : unit -> M B) s :
  bind (write_batch id g) f s =
  f tt (set_batches (<[id := g (rd (batches s) id)]> (batches s)) s).
Proof. unfold write_batch. by rewrite bind_store. Qed.

Lemma bind_emit {B} e (f : unit -> M B) s :
  bind (emit e) f s = prepend (Emit e) (f tt s).
Proof. unfold bind, emit, prepend. by destruct (f tt s). Qed.

Lemma bind_external {B} x (f : unit -> M B) s :
  bind (external x) f s = prepend x (f tt s).
Proof. unfold bind, external, prepend. by destruct (f tt s). Qed.

Lemma bind_revert_if_false {B} c e (f : unit -> M B) s :
  c = false -> bind (revert_if c e) f s = f tt s.
Proof. intros ->. unfold bind, revert_if, ret. by destruct (f tt s). Qed.

Lemma bind_revert_if_true {B} c e (f : unit -> M B) s :
  c = true -> bind (revert_if c e) f s = Rev e s.
Proof. by intros ->. Qed.

Lemma bind_checked_add {B} x y (f : uint256 -> M B) s :
  x + y <= MAX_UINT256 -> bind (checked_add x y) f s = f (x + y) s.
Proof.
  intros Hle. unfold checked_add.
  replace (x + y >? MAX_UINT256) with false by (symmetry; rewrite Z.gtb_ltb; lia).
  apply bind_ret.
Qed.

Lemma bind_average_Some {B} b cts (f : list bytes32 -> M B) s :
  averageCiphertexts b = Some cts -> bind (average b) f s = f cts s.
Proof. intros Hb. unfold average. rewrite Hb. apply bind_ret. Qed.

Lemma bind_abi_decode_uint256 {B} d (f : uint256 -> M B) s :
  (32 <= length d)%nat ->
  bind (abi_decode_uint256 d) f s = f (be_value (firstn 32 d)) s.
Proof.
  intros Hle. unfold abi_decode_uint256.
  replace (length d <? 32)%nat with false by (symmetry; apply Nat.ltb_ge; lia).
  apply bind_ret.
Qed.

Lemma bind_slice_from {B} n d (f : list byte -> M B) s :
  (n <= length d)%nat -> bind (slice_from n d) f s = f (skipn n d) s.
Proof.
  intros Hle. unfold slice_from.
  replace (length d <? n)%nat with false by (symmetry; apply Nat.ltb_ge; lia).
  apply bind_ret.
Qed.

Lemma bind_onlyOwner {B} env (f : unit -> M B) s :
  msg_sender env = owner s -> bind (onlyOwner env) f s = f tt s.
Proof.
  intros Ho. unfold onlyOwner, bind at 1. rewrite bind_load.
  unfold revert_if. rewrite Ho, Z.eqb_refl. cbn. by destruct (f tt s).
Qed.

Lemma bind_onlyOwner_other {B} env (f : unit -> M B) s :
  msg_sender env <> owner s -> bind (onlyOwner env) f s = Rev Error.NotOwner s.
Proof.
  intros Ho. unfold onlyOwner, bind at 1. rewrite bind_load.
  unfold revert_if. apply Z.eqb_neq in Ho. by rewrite Ho.
Qed.

Lemma bind_onlyProvider {B} env (f : unit -> M B) s :
  rd (isProvider s) (msg_sender env) = true -> bind (onlyProvider env) f s = f tt s.
Proof.
  intros Hp. unfold onlyProvider, bind at 1. rewrite bind_load.
  unfold revert_if. rewrite Hp. cbn. by destruct (f tt s).
Qed.

Lemma bind_whenNotPaused {B} (f : unit -> M B) s :
  paused s = false -> bind whenNotPaused f s = f tt s.
Proof.
  intros Hp. unfold whenNotPaused, bind at 1. rewrite bind_load.
  unfold revert_if. rewrite Hp. cbn. by destruct (f tt s).
Qed.

Lemma bind_checkCooldown {B} (isSubmission : bool) env (f : unit -> M B) s :
  let cooldown :=
    if isSubmission then rd (lastSubmissionTime s) (msg_sender env)
    else rd (lastRequestTime s) (msg_sender env) in
  cooldown + cooldownSeconds s <= MAX_UINT256 ->
  cooldown + cooldownSeconds s <= block_timestamp env ->
  bind (checkCooldown isSubmission env) f s = f tt s.
Proof.
  intros cooldown Hmax Hts. unfold checkCooldown, bind at 1. rewrite bind_load.
  fold cooldown. rewrite bind_checked_add by done.
  unfold revert_if.
  replace (block_timestamp env <? cooldown + cooldownSeconds s) with false
    by (symmetry; apply Z.ltb_ge; lia).
  cbn. by destruct (f tt s).
Qed.

(** *** The averaging loop *)

Lemma sumAttributes_total n : forall i batch sums,
  (forall j, i <= j < i + Z.of_nat n -> initialized (rd (nftData batch) j) = true) ->
  exists r, sumAttributes n i batch sums = Some r.
Proof.
  induction n as [|n IH]; intros i batch [[a b] c] Hinit; cbn [sumAttributes].
  - eauto.
  - rewrite Hinit by lia. cbn. apply IH. intros j Hj. apply Hinit. lia.
Qed.

Lemma averageHandles_total batch :
  (forall j, 0 <= j < numNFTs batch -> initialized (rd (nftData batch) j) = true) ->
  exists h, averageHandles batch = Some h.
Proof.
  intros Hinit. unfold averageHandles.
  destruct (sumAttributes_total (Z.to_nat (numNFTs batch)) 0 batch
              (FHE.asEuint32 0, FHE.asEuint32 0, FHE.asEuint32 0)) as [[[a b] c] ->].
  - intros j Hj. apply Hinit. lia.
  - eauto.
Qed.

Lemma averageCiphertexts_total batch :
  (forall j, 0 <= j < numNFTs batch -> initialized (rd (nftData batch) j) = true) ->
  exists cts, averageCiphertexts batch = Some cts.
Proof.
  intros Hinit. unfold averageCiphertexts.
  destruct (averageHandles_total batch Hinit) as [[[a b] c] ->]. eauto.
Qed.

Lemma wellFormed_average s b :
  wellFormed s -> exists cts, averageCiphertexts (rd (batches s) b) = Some cts.
Proof. intros Hwf. apply averageCiphertexts_total, (wf_entries s Hwf). Qed.

(** *** The callback up to its commitment check *)

Lemma myCallback_replay r cleartexts proof s :
  processed (rd (decryptionContexts s) r) = true ->
  myCallback r cleartexts proof s = Rev Error.ReplayAttempt s.
Proof.
  intros Hp. unfold myCallback. rewrite bind_load.
  by rewrite bind_revert_if_true.
Qed.

Lemma myCallback_mismatch r cleartexts proof s cts :
  let ctx := rd (decryptionContexts s) r in
  processed ctx = false ->
  averageCiphertexts (rd (batches s) (batchId ctx)) = Some cts ->
  _hashCiphertexts cts <> stateHash ctx ->
  myCallback r cleartexts proof s = Rev Error.StateMismatch s.
Proof.
  intros ctx Hp Hav Hne. unfold myCallback. rewrite bind_load.
  rewrite bind_revert_if_false by done.
  rewrite (bind_average_Some _ cts) by done.
  rewrite bind_revert_if_true; [done|].
  apply negb_true_iff, Z.eqb_neq. done.
Qed.

Lemma reachable_run tr : forall s, reachable s -> reachable (run tr s).
Proof.
  induction tr as [|[c env] tr IH]; intros s Hs; cbn [run]; [done|].
  apply IH. by constructor.
Qed.

(** ** Atomicity of reverts *)

(** C7. Whenever a call reverts, with whatever error, the storage after
    the call is the storage before it and no effect of the call remains;
    and for the errors the contract declares, the body had not written
    anything when it raised the error. *)
Theorem revert_leaves_storage_untouched c env s e :
  transact c env s = Reverted e ->
  storage_after c env s = s /\
  effects_of c env s = [] /\
  (Error.named e = true ->
   forall s_abort, body c env s = Rev e s_abort -> s_abort = s).
Proof.
  intros Ht. unfold storage_after, effects_of. rewrite Ht.
  repeat split. intros Hn s_abort Hb.
  pose proof (atomic_body c env s) as Ha. rewrite Hb in Ha. auto.
Qed.

(** ** Fusion needs two entries *)

(** C4. [fuseNFTs] on a batch with fewer than two entries reverts, for
    every caller and batch id: no decryption context is recorded and no
    request reaches the oracle. *)
Theorem fuseNFTs_needs_two_entries b env s :
  numNFTs (rd (batches s) b) < 2 ->
  (exists e, transact (FuseNFTs b) env s = Reverted e) /\
  decryptionContexts (storage_after (FuseNFTs b) env s) = decryptionContexts s /\
  storage_after (FuseNFTs b) env s = s /\
  effects_of (FuseNFTs b) env s = [].
Proof.
  intros Hlt.
  assert (exists e, transact (FuseNFTs b) env s = Reverted e) as [e He].
  { unfold transact. destruct (body (FuseNFTs b) env s) as [u s' l|e s'] eqn:Hb; [|eauto].
    apply body_contexts in Hb as (cts & _ & _ & _ & Hn & _). lia. }
  unfold storage_after, effects_of. rewrite He. eauto.
Qed.

(** ** Replay guard *)

(** C2. A callback for a processed request id reverts with
    [ReplayAttempt]; a processed context stays processed along every
    sequence of calls in which the oracle does not hand the id out again;
    and the flag goes from false to true only in a callback for that id
    that commits. *)
Theorem processed_is_final r :
  (forall s env cleartexts proof,
      processed (rd (decryptionContexts s) r) = true ->
      transact (MyCallback r cleartexts proof) env s = Reverted Error.ReplayAttempt) /\
  (forall tr s,
      processed (rd (decryptionContexts s) r) = true ->
      Forall (fun '(c, env) => forall b, c = FuseNFTs b -> requestId env <> r) tr ->
      processed (rd (decryptionContexts (run tr s)) r) = true) /\
  (forall s c env,
      processed (rd (decryptionContexts s) r) = false ->
      processed (rd (decryptionContexts (storage_after c env s)) r) = true ->
      exists cleartexts proof l,
        c = MyCallback r cleartexts proof /\
        transact c env s = Committed (storage_after c env s) l).
Proof.
  split; [|split].
  - intros s env cleartexts proof Hp. unfold transact. cbn [body].
    by rewrite myCallback_replay.
  - induction tr as [|[c env] tr IH]; intros s Hp Hfresh; cbn [run]; [done|].
    inversion Hfresh as [|? ? Hc Htr]; subst. apply IH; [|done].
    destruct (storage_after_cases c env s) as [->|(u & l & Hb)]; [done|].
    apply body_contexts in Hb.
    destruct c; try (destruct Hb as [-> _]; done).
    + destruct Hb as (cts & _ & _ & _ & _ & -> & _).
      rewrite rd_insert_ne; [done|]. by eapply Hc.
    + cbn zeta in Hb. destruct Hb as (cts & _ & _ & _ & _ & _ & _ & -> & _).
      destruct (decide (requestId0 = r)) as [->|Hne].
      * by rewrite rd_insert_eq.
      * by rewrite rd_insert_ne.
  - intros s c env Hp Hp'.
    unfold storage_after, transact in *.
    destruct (body c env s) as [u s' l|e s'] eqn:Hb; [|congruence].
    pose proof Hb as Hb'. apply body_contexts in Hb.
    destruct c; try (destruct Hb as [Hd _]; rewrite Hd in Hp'; congruence).
    + destruct Hb as (cts & _ & _ & _ & _ & Hd & _). rewrite Hd in Hp'.
      destruct (decide (requestId env = r)) as [Heq|Hne].
      * rewrite Heq, rd_insert_eq in Hp'. done.
      * rewrite rd_insert_ne in Hp' by done. congruence.
    + cbn zeta in Hb. destruct Hb as (cts & _ & _ & _ & _ & _ & _ & Hd & _).
      rewrite Hd in Hp'.
      destruct (decide (requestId0 = r)) as [->|Hne].
      * eauto.
      * rewrite rd_insert_ne in Hp' by done. congruence.
Qed.

(** ** Commitment check *)

(** C1 (as amended). In every reachable state and for every request id,
    the commitment can be recomputed, and when it differs from the stored
    one the callback reverts whatever the cleartexts and the proof are:
    with [StateMismatch] while the request is not processed, with
    [ReplayAttempt] once it is. *)
Theorem mismatch_rejects_before_proof s r env cleartexts proof :
  reachable s ->
  let ctx := rd (decryptionContexts s) r in
  exists cts,
    averageCiphertexts (rd (batches s) (batchId ctx)) = Some cts /\
    (_hashCiphertexts cts <> stateHash ctx ->
     transact (MyCallback r cleartexts proof) env s =
       Reverted (if processed ctx then Error.ReplayAttempt else Error.StateMismatch)).
Proof.
  intros Hr ctx. apply reachable_wellFormed in Hr.
  destruct (wellFormed_average s (batchId ctx) Hr) as [cts Hcts].
  exists cts. split; [done|]. intros Hne.
  unfold transact. cbn [body]. destruct (processed ctx) eqn:Hp.
  - by rewrite myCallback_replay.
  - by rewrite (myCallback_mismatch _ _ _ _ cts).
Qed.

(** ** Unrecorded request ids *)

(** C9. In every reachable state a callback for a request id that
    [fuseNFTs] never recorded reverts with [StateMismatch] and leaves no
    event: its context is the zero context, batch 0 is empty, and the
    commitment over the three quotients of encrypted zeros is compared
    with the zero hash, from which keccak256 is taken to differ. *)
Theorem unrecorded_request_is_rejected s r env cleartexts proof :
  reachable s ->
  decryptionContexts s !! r = None ->
  let q := FHE.toBytes32 (FHE.div (FHE.asEuint32 0) (FHE.asEuint32 0)) in
  keccak256 (abi_encode [q; q; q] this) <> 0 ->
  rd (decryptionContexts s) r = zero /\
  numNFTs (rd (batches s) 0) = 0 /\
  transact (MyCallback r cleartexts proof) env s = Reverted Error.StateMismatch /\
  effects_of (MyCallback r cleartexts proof) env s = [].
Proof.
  intros Hr Hnone q Hq. apply reachable_wellFormed in Hr.
  assert (rd (decryptionContexts s) r = zero) as Hctx by by apply rd_None.
  assert (rd (batches s) 0 = zero) as Hb0.
  { apply rd_None, (wf_first s Hr). lia. }
  assert (transact (MyCallback r cleartexts proof) env s = Reverted Error.StateMismatch)
    as Ht.
  { unfold transact. cbn [body].
    rewrite (myCallback_mismatch _ _ _ _ [q; q; q]); rewrite ?Hctx; cbn; try done.
    by rewrite Hb0. }
  repeat split; [done|by rewrite Hb0|done|].
  unfold effects_of. by rewrite Ht.
Qed.

(** ** Batches *)

Lemma earlier_batches_step c env s b :
  b < currentBatchId s ->
  batches (storage_after c env s) !! b = batches s !! b /\
  currentBatchId s <= currentBatchId (storage_after c env s).
Proof.
  intros Hlt. destruct (storage_after_cases c env s) as [->|(u & l & Hb)]; [done|].
  apply body_batches in Hb. cbn zeta in Hb.
  destruct c; try (destruct Hb as [-> ->]; done).
  - destruct Hb as (_ & _ & -> & ->). rewrite lookup_insert_ne by lia. split; [done|lia].
  - destruct Hb as (_ & _ & -> & ->). by rewrite lookup_insert_ne by lia.
  - destruct Hb as (_ & _ & -> & ->). by rewrite lookup_insert_ne by lia.
Qed.

(** C10. A batch whose id is below the current batch id is never written
    again, whatever its open flag says: along every sequence of calls its
    flag, entry count, owners and attribute data stay what they are; and
    [openBatch] itself leaves the batch that was current as it found it. *)
Theorem earlier_batches_are_frozen :
  (forall tr s b,
      b < currentBatchId s ->
      batches (run tr s) !! b = batches s !! b /\
      currentBatchId s <= currentBatchId (run tr s)) /\
  (forall s env,
      batches (storage_after OpenBatch env s) !! currentBatchId s =
      batches s !! currentBatchId s).
Proof.
  split.
  - induction tr as [|[c env] tr IH]; intros s b Hlt; cbn [run]; [done|].
    destruct (earlier_batches_step c env s b Hlt) as [Hb Hc].
    assert (b < currentBatchId (storage_after c env s)) as Hlt' by lia.
    destruct (IH (storage_after c env s) b Hlt') as [Hb' Hc'].
    split; [congruence|lia].
  - intros s env.
    destruct (storage_after_cases OpenBatch env s) as [->|(u & l & Hb)]; [done|].
    apply body_batches in Hb as (_ & _ & _ & ->). by rewrite lookup_insert_ne by lia.
Qed.

(** C6. In every reachable state and for every call: the open flag of a
    batch changes only in [openBatch] or [closeBatch] called by the owner,
    and these two revert with [NotOwner] for anyone else; no entry count
    decreases; the owner and the attribute data stored below a batch's
    entry count stay as they are; a submission that commits wrote the
    caller and the three handles at the old entry count of the current
    batch and raised the count by one; and a submission reverts when the
    current batch is not open. *)
Theorem batches_owner_gated_append_only s c env :
  reachable s ->
  let s' := storage_after c env s in
  (forall b, isOpen (rd (batches s') b) <> isOpen (rd (batches s) b) ->
             (c = OpenBatch \/ c = CloseBatch) /\ msg_sender env = owner s) /\
  ((c = OpenBatch \/ c = CloseBatch) -> msg_sender env <> owner s ->
   transact c env s = Reverted Error.NotOwner) /\
  (forall b, numNFTs (rd (batches s) b) <= numNFTs (rd (batches s') b)) /\
  (forall b i, 0 <= i < numNFTs (rd (batches s) b) ->
               rd (nftOwners (rd (batches s') b)) i = rd (nftOwners (rd (batches s) b)) i /\
               rd (nftData (rd (batches s') b)) i = rd (nftData (rd (batches s) b)) i) /\
  (forall a1 a2 a3 l, c = SubmitNFT a1 a2 a3 -> transact c env s = Committed s' l ->
     let cur := currentBatchId s in
     let n := numNFTs (rd (batches s) cur) in
     numNFTs (rd (batches s') cur) = n + 1 /\
     rd (nftOwners (rd (batches s') cur)) n = msg_sender env /\
     rd (nftData (rd (batches s') cur)) n =
       {| attr1 := a1; attr2 := a2; attr3 := a3; initialized := true |}) /\
  (forall a1 a2 a3, c = SubmitNFT a1 a2 a3 ->
     isOpen (rd (batches s) (currentBatchId s)) = false ->
     exists e, transact c env s = Reverted e).
Proof.
  intros Hr s'. apply reachable_wellFormed in Hr.
  destruct Hr as [Hcur Hfut Hfst Hcnt Hent].
  assert (s' = s \/ exists u l, body c env s = Ret u s' l) as Hcases
    by apply storage_after_cases.
  repeat apply conj.
  - (* the open flag *)
    intros b Hflag. destruct Hcases as [Hs|(u & l & Hb)]; [by rewrite Hs in Hflag|].
    apply body_batches in Hb. cbn zeta in Hb.
    destruct c; try (destruct Hb as [_ Hb]; by rewrite Hb in Hflag).
    + destruct Hb as (? & _). auto.
    + destruct Hb as (? & _). auto.
    + destruct Hb as (_ & _ & _ & Hb). rewrite Hb in Hflag. exfalso. apply Hflag.
      destruct (decide (currentBatchId s = b)) as [<-|Hne].
      * by rewrite rd_insert_eq.
      * by rewrite rd_insert_ne.
  - (* the owner gate *)
    intros [->| ->] Hno; unfold transact; cbn [body]; unfold openBatch, closeBatch;
      by rewrite bind_onlyOwner_other.
  - (* entry counts *)
    intros b. destruct Hcases as [->|(u & l & Hb)]; [done|].
    apply body_batches in Hb. cbn zeta in Hb.
    destruct c; try (destruct Hb as [_ ->]; done).
    + destruct Hb as (_ & _ & _ & ->).
      destruct (decide (currentBatchId s + 1 = b)) as [<-|Hne].
      * rewrite rd_insert_eq. cbn.
        rewrite (rd_None _ (currentBatchId s + 1)) by (apply Hfut; lia). done.
      * by rewrite rd_insert_ne.
    + destruct Hb as (_ & _ & _ & ->).
      destruct (decide (currentBatchId s = b)) as [<-|Hne].
      * by rewrite rd_insert_eq.
      * by rewrite rd_insert_ne.
    + destruct Hb as (_ & _ & _ & ->).
      destruct (decide (currentBatchId s = b)) as [<-|Hne].
      * rewrite rd_insert_eq. cbn. lia.
      * by rewrite rd_insert_ne.
  - (* stored entries *)
    intros b i Hi. destruct Hcases as [->|(u & l & Hb)]; [done|].
    apply body_batches in Hb. cbn zeta in Hb.
    destruct c; try (destruct Hb as [_ ->]; done).
    + destruct Hb as (_ & _ & _ & ->).
      destruct (decide (currentBatchId s + 1 = b)) as [<-|Hne].
      * by rewrite rd_insert_eq.
      * by rewrite rd_insert_ne.
    + destruct Hb as (_ & _ & _ & ->).
      destruct (decide (currentBatchId s = b)) as [<-|Hne].
      * by rewrite rd_insert_eq.
      * by rewrite rd_insert_ne.
    + destruct Hb as (_ & _ & _ & ->).
      destruct (decide (currentBatchId s = b)) as [<-|Hne].
      * rewrite rd_insert_eq. cbn. by rewrite !rd_insert_ne by lia.
      * by rewrite rd_insert_ne.
  - (* where a submission writes *)
    intros a1 a2 a3 l -> Ht. subst s'. unfold storage_after, transact in *.
    destruct (body (SubmitNFT a1 a2 a3) env s) as [u s1 l1|] eqn:Hb; [|done].
    apply body_batches in Hb as (_ & _ & _ & Hb).
    rewrite Hb, rd_insert_eq. cbn. by rewrite !rd_insert_eq.
  - (* a closed batch takes no submission *)
    intros a1 a2 a3 -> Hclosed. unfold transact.
    destruct (body (SubmitNFT a1 a2 a3) env s) as [u s1 l1|] eqn:Hb; [|eauto].
    apply body_batches in Hb as (Hopen & _). congruence.
Qed.

(** *** Calls that commit *)

Lemma openBatch_commits env s :
  msg_sender env = owner s ->
  currentBatchId s + 1 <= MAX_UINT256 ->
  let next := currentBatchId s + 1 in
  transact OpenBatch env s =
    Committed
      (set_batches
         (<[next := set_numNFTs 0 (set_isOpen true (rd (batches s) next))]> (batches s))
         (set_currentBatchId next s))
      [Emit (Event.BatchOpened next)].
Proof.
  intros Ho Hmax next. unfold transact. cbn [body]. unfold openBatch.
  rewrite bind_onlyOwner by done. rewrite bind_load, bind_checked_add by done.
  rewrite bind_store, !bind_write_batch. unfold emit. cbn.
  by rewrite rd_insert_eq, insert_insert_eq.
Qed.

Lemma submitNFT_commits a1 a2 a3 env s :
  rd (isProvider s) (msg_sender env) = true ->
  paused s = false ->
  rd (lastSubmissionTime s) (msg_sender env) + cooldownSeconds s <= MAX_UINT256 ->
  rd (lastSubmissionTime s) (msg_sender env) + cooldownSeconds s <= block_timestamp env ->
  let cur := currentBatchId s in
  let b := rd (batches s) cur in
  isOpen b = true ->
  FHE.isInitialized a1 = true -> FHE.isInitialized a2 = true ->
  FHE.isInitialized a3 = true ->
  numNFTs b + 1 <= MAX_UINT256 ->
  transact (SubmitNFT a1 a2 a3) env s =
    Committed
      (set_lastSubmissionTime
         (<[msg_sender env := block_timestamp env]> (lastSubmissionTime s))
         (set_batches
            (<[cur := {| isOpen := isOpen b;
                         numNFTs := numNFTs b + 1;
                         nftOwners := <[numNFTs b := msg_sender env]> (nftOwners b);
                         nftData := <[numNFTs b := {| attr1 := a1; attr2 := a2; attr3 := a3;
                                                      initialized := true |}]> (nftData b) |}]>
               (batches s)) s))
      [Emit (Event.NFTSubmitted (msg_sender env) (numNFTs b) cur)].
Proof.
  intros Hp Hpa Hmax Hts cur b Hopen H1 H2 H3 Hn. unfold transact. cbn [body].
  unfold submitNFT.
  rewrite bind_onlyProvider, bind_whenNotPaused by done.
  rewrite (bind_checkCooldown true) by done.
  rewrite bind_load. fold cur b.
  rewrite bind_revert_if_false by (by rewrite Hopen).
  rewrite bind_revert_if_false by (by rewrite H1, H2, H3).
  rewrite !bind_write_batch, bind_checked_add by done.
  rewrite bind_write_batch, bind_store. unfold emit. cbn.
  by rewrite !rd_insert_eq, !insert_insert_eq.
Qed.

Lemma fuseNFTs_commits b cts env s :
  rd (isProvider s) (msg_sender env) = true ->
  paused s = false ->
  rd (lastRequestTime s) (msg_sender env) + cooldownSeconds s <= MAX_UINT256 ->
  rd (lastRequestTime s) (msg_sender env) + cooldownSeconds s <= block_timestamp env ->
  b <> 0 -> b <= currentBatchId s ->
  2 <= numNFTs (rd (batches s) b) ->
  averageCiphertexts (rd (batches s) b) = Some cts ->
  transact (FuseNFTs b) env s =
    Committed
      (set_lastRequestTime
         (<[msg_sender env := block_timestamp env]> (lastRequestTime s))
         (set_decryptionContexts
            (<[requestId env := {| batchId := b; stateHash := _hashCiphertexts cts;
                                   processed := false |}]> (decryptionContexts s)) s))
      [RequestDecryption cts;
       Emit (Event.FusionRequested (requestId env) b (_hashCiphertexts cts))].
Proof.
  intros Hp Hpa Hmax Hts Hb0 Hbc Hn Hav. unfold transact. cbn [body]. unfold fuseNFTs.
  rewrite bind_onlyProvider, bind_whenNotPaused by done.
  rewrite (bind_checkCooldown false) by done.
  rewrite bind_load.
  rewrite bind_revert_if_false.
  2:{ apply orb_false_iff. split; [by apply Z.eqb_neq|]. rewrite Z.gtb_ltb. by apply Z.ltb_ge. }
  rewrite bind_revert_if_false by (apply Z.ltb_ge; lia).
  rewrite (bind_average_Some _ cts) by done.
  rewrite bind_external, !bind_store. unfold emit. done.
Qed.

Lemma myCallback_commits r cleartexts proof cts env s :
  let ctx := rd (decryptionContexts s) r in
  processed ctx = false ->
  averageCiphertexts (rd (batches s) (batchId ctx)) = Some cts ->
  _hashCiphertexts cts = stateHash ctx ->
  FHE.checkSignatures r cleartexts proof = true ->
  (96 <= length cleartexts)%nat ->
  lastTokenId s + 1 <= MAX_UINT256 ->
  transact (MyCallback r cleartexts proof) env s =
    Committed
      (set_decryptionContexts
         (<[r := set_processed true ctx]> (decryptionContexts s))
         (set_lastTokenId (lastTokenId s + 1) s))
      [Emit (Event.FusionCompleted r (batchId ctx) (lastTokenId s + 1)
               (word 0 cleartexts, word 1 cleartexts, word 2 cleartexts))].
Proof.
  intros ctx Hp Hav Hh Hsig Hlen Hmax. unfold transact. cbn [body]. unfold myCallback.
  rewrite bind_load. fold ctx.
  rewrite bind_revert_if_false by done.
  rewrite (bind_average_Some _ cts) by done.
  rewrite bind_revert_if_false by (by rewrite Hh, Z.eqb_refl).
  rewrite bind_revert_if_false by (by rewrite Hsig).
  rewrite bind_abi_decode_uint256 by lia.
  rewrite bind_slice_from by lia.
  rewrite bind_abi_decode_uint256 by (rewrite length_skipn; lia).
  rewrite bind_slice_from by lia.
  rewrite bind_abi_decode_uint256 by (rewrite length_skipn; lia).
  rewrite bind_checked_add by done.
  rewrite !bind_store. unfold emit. done.
Qed.
End ContractFacts.

(** * The average behind the ciphertexts *)

Section Averaging.
Context {L : FHE.Lib} {S : FHE.Semantics L} {E : EVM}.

(** The running sums hold the plaintext sums reduced modulo 2^32. *)
Lemma sumAttributes_plain n : forall i batch a b c a' b' c' A B C,
  sumAttributes n i batch (a, b, c) = Some (a', b', c') ->
  FHE.decrypt a = A mod 2 ^ 32 ->
  FHE.decrypt b = B mod 2 ^ 32 ->
  FHE.decrypt c = C mod 2 ^ 32 ->
  FHE.decrypt a' = (A + plainSum attr1 n i batch) mod 2 ^ 32 /\
  FHE.decrypt b' = (B + plainSum attr2 n i batch) mod 2 ^ 32 /\
  FHE.decrypt c' = (C + plainSum attr3 n i batch) mod 2 ^ 32.
Proof.
  induction n as [|n IH]; intros i batch a b c a' b' c' A B C Hs Ha Hb Hc;
    cbn [sumAttributes plainSum] in *.
  - injection Hs as <- <- <-. by rewrite !Z.add_0_r.
  - destruct (negb (initialized (rd (nftData batch) i))); [done|].
    rewrite !Z.add_assoc.
    eapply IH; [exact Hs|..]; rewrite FHE.decrypt_add.
    + by rewrite Ha, Zplus_mod_idemp_l.
    + by rewrite Hb, Zplus_mod_idemp_l.
    + by rewrite Hc, Zplus_mod_idemp_l.
Qed.

Lemma averageHandles_plain batch h1 h2 h3 :
  let n := numNFTs batch in
  averageHandles batch = Some (h1, h2, h3) ->
  n mod 2 ^ 32 <> 0 ->
  FHE.decrypt h1 = (plainSum attr1 (Z.to_nat n) 0 batch mod 2 ^ 32) ÷ (n mod 2 ^ 32) /\
  FHE.decrypt h2 = (plainSum attr2 (Z.to_nat n) 0 batch mod 2 ^ 32) ÷ (n mod 2 ^ 32) /\
  FHE.decrypt h3 = (plainSum attr3 (Z.to_nat n) 0 batch mod 2 ^ 32) ÷ (n mod 2 ^ 32).
Proof.
  intros n Hav Hn. unfold averageHandles in Hav. fold n in Hav.
  destruct (sumAttributes _ _ _ _) as [[[a b] c]|] eqn:Hs; [|done].
  injection Hav as <- <- <-.
  eapply (sumAttributes_plain _ _ _ _ _ _ _ _ _ 0 0 0) in Hs;
    try apply FHE.decrypt_asEuint32.
  destruct Hs as (Ha & Hb & Hc). cbn [Z.add] in *.
  assert (0 < n mod 2 ^ 32) as Hpos.
  { pose proof (Z.mod_pos_bound n (2 ^ 32) ltac:(done)). lia. }
  assert (forall x, (x mod 2 ^ 32) ÷ (n mod 2 ^ 32) = (x mod 2 ^ 32) / (n mod 2 ^ 32)) as Hq.
  { intros x. apply Z.quot_div_nonneg; [|done].
    apply Z.mod_pos_bound. done. }
  rewrite !Hq, !FHE.decrypt_div, !FHE.decrypt_asEuint32, Ha, Hb, Hc;
    rewrite ?FHE.decrypt_asEuint32; done.
Qed.

(** C3. For a batch with at least two entries, all initialized, whose
    entry count is not a multiple of 2^32: the averaging yields three
    handles whose plaintexts are, attribute by attribute, the sum of the
    entries' plaintexts reduced modulo 2^32 and divided, truncating, by
    the entry count as a 32-bit number; these handles are the
    ciphertexts a fusion of that batch submits to the oracle, and the
    fusion commits for every provider that passes the pause, cooldown and
    batch id guards. *)
Theorem fused_average_is_truncated_mean s b :
  let batch := rd (batches s) b in
  let n := numNFTs batch in
  2 <= n ->
  (forall i, 0 <= i < n -> initialized (rd (nftData batch) i) = true) ->
  n mod 2 ^ 32 <> 0 ->
  exists h1 h2 h3,
    averageHandles batch = Some (h1, h2, h3) /\
    FHE.decrypt h1 = (plainSum attr1 (Z.to_nat n) 0 batch mod 2 ^ 32) ÷ (n mod 2 ^ 32) /\
    FHE.decrypt h2 = (plainSum attr2 (Z.to_nat n) 0 batch mod 2 ^ 32) ÷ (n mod 2 ^ 32) /\
    FHE.decrypt h3 = (plainSum attr3 (Z.to_nat n) 0 batch mod 2 ^ 32) ÷ (n mod 2 ^ 32) /\
    let cts := [FHE.toBytes32 h1; FHE.toBytes32 h2; FHE.toBytes32 h3] in
    (forall env s' l,
        transact (FuseNFTs b) env s = Committed s' l -> In (RequestDecryption cts) l) /\
    (forall env,
        rd (isProvider s) (msg_sender env) = true ->
        paused s = false ->
        rd (lastRequestTime s) (msg_sender env) + cooldownSeconds s <= MAX_UINT256 ->
        rd (lastRequestTime s) (msg_sender env) + cooldownSeconds s <= block_timestamp env ->
        b <> 0 -> b <= currentBatchId s ->
        exists s', transact (FuseNFTs b) env s =
                     Committed s' [RequestDecryption cts;
                                   Emit (Event.FusionRequested (requestId env) b
                                           (_hashCiphertexts cts))]).
Proof.
  intros batch n Hn Hinit Hmod.
  destruct (averageHandles_total batch Hinit) as [[[h1 h2] h3] Hav].
  exists h1, h2, h3. split; [done|].
  destruct (averageHandles_plain batch h1 h2 h3 Hav Hmod) as (H1 & H2 & H3).
  repeat split; try done.
  - intros env s' l Ht. unfold transact in Ht.
    destruct (body (FuseNFTs b) env s) as [u s1 l1|] eqn:Hb; [|done].
    injection Ht as _ <-.
    apply body_contexts in Hb as (cts & Hcts & _ & _ & _ & _ & _ & ->).
    unfold averageCiphertexts in Hcts. fold batch in Hcts. rewrite Hav in Hcts.
    injection Hcts as <-. by left.
  - intros env Hp Hpa Hmax Hts Hb0 Hbc. eexists.
    apply fuseNFTs_commits; try done.
    unfold averageCiphertexts. fold batch. by rewrite Hav.
Qed.
End Averaging.

(** * A whole fusion *)

Section Scenario.
Context {L : FHE.Lib} {S : FHE.Semantics L} {E : EVM}.

(** The averages of a batch of two entries. *)
Lemma averageHandles_two batch a1 a2 a3 b1 b2 b3 :
  numNFTs batch = 2 ->
  rd (nftData batch) 0 = {| attr1 := a1; attr2 := a2; attr3 := a3; initialized := true |} ->
  rd (nftData batch) 1 = {| attr1 := b1; attr2 := b2; attr3 := b3; initialized := true |} ->
  let mean x y := FHE.div (FHE.add (FHE.add (FHE.asEuint32 0) x) y) (FHE.asEuint32 2) in
  averageHandles batch = Some (mean a1 b1, mean a2 b2, mean a3 b3).
Proof.
  intros Hn H0 H1 mean. unfold averageHandles. rewrite Hn.
  change (Z.to_nat 2) with 2%nat. cbn [sumAttributes].
  change (0 + 1) with 1. rewrite H0, H1. done.
Qed.

Lemma decrypt_mean_two x y :
  FHE.decrypt (FHE.div (FHE.add (FHE.add (FHE.asEuint32 0) x) y) (FHE.asEuint32 2)) =
  ((FHE.decrypt x + FHE.decrypt y) mod 2 ^ 32) ÷ 2.
Proof.
  rewrite FHE.decrypt_div by (by rewrite FHE.decrypt_asEuint32).
  rewrite !FHE.decrypt_add, !FHE.decrypt_asEuint32.
  change (0 mod 2 ^ 32) with 0. change (2 mod 2 ^ 32) with 2.
  rewrite Z.add_0_l, Zplus_mod_idemp_l.
  symmetry. apply Z.quot_div_nonneg; [|done].
  apply Z.mod_pos_bound. done.
Qed.

(** Decoding undoes the oracle's encoding. *)
Lemma byte_of_value v : Z.of_N (Byte.to_N (byte_of v)) = v mod 256.
Proof.
  unfold byte_of.
  pose proof (Z.mod_pos_bound v 256 eq_refl) as Hb.
  destruct (Byte.of_N (Z.to_N (v mod 256))) as [b|] eqn:Hof; cbn.
  - apply Byte.to_of_N in Hof. rewrite Hof. lia.
  - apply Byte.of_N_None_iff in Hof. lia.
Qed.

Lemma be_value_snoc l b :
  be_value (l ++ [b]) = be_value l * 256 + Z.of_N (Byte.to_N b).
Proof. unfold be_value. by rewrite fold_left_app. Qed.

Lemma length_be_bytes n v : length (be_bytes n v) = n.
Proof.
  revert v. induction n as [|n IH]; intros v; [done|].
  cbn [be_bytes]. rewrite length_app, IH. cbn. lia.
Qed.

Lemma be_value_be_bytes n v : be_value (be_bytes n v) = v mod 256 ^ Z.of_nat n.
Proof.
  revert v. induction n as [|n IH]; intros v.
  - cbn. by rewrite Z.mod_1_r.
  - cbn [be_bytes]. rewrite be_value_snoc, IH, byte_of_value.
    rewrite Nat2Z.inj_succ, Z.pow_succ_r by lia.
    rewrite Z.rem_mul_r by lia. lia.
Qed.

Lemma be_value_abi_encode_uint256 v :
  0 <= v <= MAX_UINT256 -> be_value (abi_encode_uint256 v) = v.
Proof.
  intros Hv. unfold abi_encode_uint256. rewrite be_value_be_bytes.
  apply Z.mod_small. unfold MAX_UINT256 in Hv.
  change (256 ^ Z.of_nat 32) with (2 ^ 256). lia.
Qed.

Lemma word_abi_encode_uint256s vs k v :
  vs !! k = Some v -> 0 <= v <= MAX_UINT256 ->
  word k (abi_encode_uint256s vs) = v.
Proof.
  intros Hk Hv. unfold word, abi_encode_uint256s.
  revert k Hk. induction vs as [|w vs IH]; intros k Hk; [done|].
  cbn [map concat].
  assert (length (abi_encode_uint256 w) = 32%nat) as Hlen by apply length_be_bytes.
  destruct k as [|k].
  - injection Hk as ->. change (32 * 0)%nat with 0%nat. rewrite skipn_O.
    rewrite firstn_app, Hlen. change (32 - 32)%nat with 0%nat.
    rewrite firstn_O, app_nil_r, firstn_all2 by lia.
    by apply be_value_abi_encode_uint256.
  - replace (32 * Datatypes.S k)%nat with (32 + 32 * k)%nat by lia.
    rewrite skipn_app, Hlen.
    rewrite (skipn_all2 (abi_encode_uint256 w)) by lia.
    replace (32 + 32 * k - 32)%nat with (32 * k)%nat by lia.
    cbn [app]. by apply IH.
Qed.

Lemma mean_bound x : 0 <= (x mod 2 ^ 32) ÷ 2 <= MAX_UINT256.
Proof.
  pose proof (Z.mod_pos_bound x (2 ^ 32) eq_refl) as Hb.
  pose proof MAX_UINT256_large.
  rewrite Z.quot_div_nonneg by lia.
  assert (0 <= x mod 2 ^ 32 / 2 <= x mod 2 ^ 32); [|lia].
  split; [apply Z.div_pos; lia|]. apply Z.div_le_upper_bound; lia.
Qed.

(** C5. From any reachable, unpaused state: the owner opens a batch, two
    different providers whose submission cooldown is over each submit
    initialized handles, a provider whose request cooldown is over calls
    [fuseNFTs] on that batch, and the oracle calls back with the encoded
    plaintexts of the three handles it was sent and a proof the library
    accepts. Every call commits; the three handles of the request decrypt
    to the truncated means of the two submitted values, attribute by
    attribute; the callback emits exactly one [FusionCompleted], whose
    token id is the [lastTokenId] before the callback plus one and whose
    attributes are those three means; and another callback with the same
    request id, whatever its payload, reverts with [ReplayAttempt]. *)
Theorem fusion_round_trip s envO env1 env2 envF envC envR
    a1 a2 a3 b1 b2 b3 proof cleartexts' proof' :
  reachable s ->
  msg_sender envO = owner s ->
  currentBatchId s + 1 <= MAX_UINT256 ->
  paused s = false ->
  msg_sender env1 <> msg_sender env2 ->
  rd (isProvider s) (msg_sender env1) = true ->
  rd (isProvider s) (msg_sender env2) = true ->
  rd (isProvider s) (msg_sender envF) = true ->
  cooldownOver (lastSubmissionTime s) s env1 ->
  cooldownOver (lastSubmissionTime s) s env2 ->
  cooldownOver (lastRequestTime s) s envF ->
  FHE.isInitialized a1 = true -> FHE.isInitialized a2 = true ->
  FHE.isInitialized a3 = true ->
  FHE.isInitialized b1 = true -> FHE.isInitialized b2 = true ->
  FHE.isInitialized b3 = true ->
  lastTokenId s + 1 <= MAX_UINT256 ->
  let id := currentBatchId s + 1 in
  let rid := requestId envF in
  let m1 := ((FHE.decrypt a1 + FHE.decrypt b1) mod 2 ^ 32) ÷ 2 in
  let m2 := ((FHE.decrypt a2 + FHE.decrypt b2) mod 2 ^ 32) ÷ 2 in
  let m3 := ((FHE.decrypt a3 + FHE.decrypt b3) mod 2 ^ 32) ÷ 2 in
  let s1 := storage_after OpenBatch envO s in
  let s2 := storage_after (SubmitNFT a1 a2 a3) env1 s1 in
  let s3 := storage_after (SubmitNFT b1 b2 b3) env2 s2 in
  let s4 := storage_after (FuseNFTs id) envF s3 in
  exists h1 h2 h3,
    let cleartexts :=
      abi_encode_uint256s [FHE.decrypt h1; FHE.decrypt h2; FHE.decrypt h3] in
    let s5 := storage_after (MyCallback rid cleartexts proof) envC s4 in
    transact OpenBatch envO s = Committed s1 [Emit (Event.BatchOpened id)] /\
    transact (SubmitNFT a1 a2 a3) env1 s1 =
      Committed s2 [Emit (Event.NFTSubmitted (msg_sender env1) 0 id)] /\
    transact (SubmitNFT b1 b2 b3) env2 s2 =
      Committed s3 [Emit (Event.NFTSubmitted (msg_sender env2) 1 id)] /\
    (let cts := [FHE.toBytes32 h1; FHE.toBytes32 h2; FHE.toBytes32 h3] in
     transact (FuseNFTs id) envF s3 =
       Committed s4 [RequestDecryption cts;
                     Emit (Event.FusionRequested rid id (_hashCiphertexts cts))]) /\
    FHE.decrypt h1 = m1 /\ FHE.decrypt h2 = m2 /\ FHE.decrypt h3 = m3 /\
    lastTokenId s4 = lastTokenId s /\
    (FHE.checkSignatures rid cleartexts proof = true ->
     transact (MyCallback rid cleartexts proof) envC s4 =
       Committed s5
         [Emit (Event.FusionCompleted rid id (lastTokenId s4 + 1) (m1, m2, m3))] /\
     transact (MyCallback rid cleartexts' proof') envR s5 =
       Reverted Error.ReplayAttempt).
Proof.
  intros Hr Ho Hmax Hpa Hne Hp1 Hp2 Hpf [Hc1 Hc1'] [Hc2 Hc2'] [HcF HcF']
    Ha1 Ha2 Ha3 Hb1 Hb2 Hb3 Htok id rid m1 m2 m3 s1 s2 s3 s4.
  apply reachable_wellFormed in Hr. destruct Hr as [Hcur Hfut Hfst Hcnt Hent].
  (* the owner opens the batch *)
  pose proof (openBatch_commits envO s Ho Hmax) as Ht1. cbn zeta in Ht1. fold id in Ht1.
  rewrite (rd_None _ id) in Ht1 by (apply Hfut; lia). cbn in Ht1.
  assert (s1 = set_batches (<[id:=set_numNFTs 0 (set_isOpen true zero)]> (batches s))
                 (set_currentBatchId id s)) as Hs1
    by (unfold s1, storage_after; by rewrite Ht1).
  clearbody s1. subst s1.
  (* the first provider submits *)
  pose proof (MAX_UINT256_large) as Hlarge.
  match goal with
  | |- context [transact (SubmitNFT a1 a2 a3) env1 ?st] =>
      pose proof (submitNFT_commits a1 a2 a3 env1 st) as Ht2
  end.
  cbn in Ht2. rewrite !rd_insert_eq in Ht2. cbn in Ht2.
  rewrite insert_insert_eq in Ht2.
  specialize (Ht2 Hp1 Hpa Hc1 Hc1' eq_refl Ha1 Ha2 Ha3 ltac:(lia)).
  change (0 + 1) with 1 in Ht2.
  match type of Ht2 with
  | _ = Committed ?st _ =>
      assert (s2 = st) as Hs2 by (unfold s2, storage_after; by rewrite Ht2)
  end.
  clearbody s2. subst s2.
  (* the second provider submits *)
  match goal with
  | |- context [transact (SubmitNFT b1 b2 b3) env2 ?st] =>
      pose proof (submitNFT_commits b1 b2 b3 env2 st) as Ht3
  end.
  cbn in Ht3. rewrite !rd_insert_eq, !rd_insert_ne in Ht3 by done. cbn in Ht3.
  rewrite insert_insert_eq in Ht3.
  specialize (Ht3 Hp2 Hpa Hc2 Hc2' eq_refl Hb1 Hb2 Hb3 ltac:(lia)).
  change (1 + 1) with 2 in Ht3.
  match type of Ht3 with
  | _ = Committed ?st _ =>
      assert (s3 = st) as Hs3 by (unfold s3, storage_after; by rewrite Ht3)
  end.
  clearbody s3. subst s3.
  (* a provider requests the fusion *)
  set (mean x y := FHE.div (FHE.add (FHE.add (FHE.asEuint32 0) x) y) (FHE.asEuint32 2)).
  exists (mean a1 b1), (mean a2 b2), (mean a3 b3).
  intros cleartexts s5.
  set (cts := [FHE.toBytes32 (mean a1 b1); FHE.toBytes32 (mean a2 b2);
               FHE.toBytes32 (mean a3 b3)]).
  match goal with
  | |- context [transact (FuseNFTs id) envF ?st] =>
      pose proof (fuseNFTs_commits id cts envF st) as Ht4
  end.
  cbn in Ht4. rewrite !rd_insert_eq in Ht4. cbn in Ht4.
  specialize (Ht4 Hpf Hpa HcF HcF' ltac:(lia) ltac:(lia) ltac:(lia)).
  assert (Hav :
    averageCiphertexts
      {| isOpen := true; numNFTs := 2;
         nftOwners := <[1 := msg_sender env2]> (<[0 := msg_sender env1]> ∅);
         nftData :=
           <[1 := {| attr1 := b1; attr2 := b2; attr3 := b3; initialized := true |}]>
             (<[0 := {| attr1 := a1; attr2 := a2; attr3 := a3;
                        initialized := true |}]> ∅) |} =
    Some cts).
  { unfold averageCiphertexts.
    rewrite (averageHandles_two _ a1 a2 a3 b1 b2 b3); [done|done|..].
    - cbn. by rewrite rd_insert_ne, rd_insert_eq.
    - cbn. by rewrite rd_insert_eq. }
  specialize (Ht4 Hav).
  match type of Ht4 with
  | _ = Committed ?st _ =>
      assert (s4 = st) as Hs4 by (unfold s4, storage_after; by rewrite Ht4)
  end.
  clearbody s4. subst s4.
  (* what the oracle decrypts, and what the callback decodes *)
  assert (FHE.decrypt (mean a1 b1) = m1) as Hm1 by apply decrypt_mean_two.
  assert (FHE.decrypt (mean a2 b2) = m2) as Hm2 by apply decrypt_mean_two.
  assert (FHE.decrypt (mean a3 b3) = m3) as Hm3 by apply decrypt_mean_two.
  assert (word 0 cleartexts = m1 /\ word 1 cleartexts = m2 /\ word 2 cleartexts = m3)
    as (Hw1 & Hw2 & Hw3).
  { unfold cleartexts. rewrite Hm1, Hm2, Hm3.
    repeat split; apply word_abi_encode_uint256s; try done; apply mean_bound. }
  assert (length cleartexts = 96%nat) as Hlen by done.
  clearbody cleartexts.
  do 8 (split; [done|]).
  intros Hsig.
  (* the oracle calls back *)
  match goal with
  | |- context [transact (MyCallback rid cleartexts proof) envC ?st] =>
      pose proof (myCallback_commits rid cleartexts proof cts envC st) as Ht5
  end.
  cbn -[word] in Ht5. rewrite !rd_insert_eq in Ht5. cbn -[word] in Ht5.
  specialize (Ht5 eq_refl Hav eq_refl Hsig ltac:(lia) Htok).
  rewrite Hw1, Hw2, Hw3 in Ht5.
  match type of Ht5 with
  | _ = Committed ?st _ =>
      assert (s5 = st) as Hs5 by (unfold s5, storage_after; by rewrite Ht5)
  end.
  clearbody s5. subst s5.
  split; [done|].
  (* and once more *)
  unfold transact. cbn [body]. rewrite myCallback_replay; [done|].
  cbn. by rewrite rd_insert_eq.
Qed.
End Scenario.


(** * Properties of the client codec *)

Section Codec.
Local Open Scope char_scope.

(** ** Base64 *)

Lemma list_ind3 {A} (P : list A -> Prop) :
  P [] -> (forall a, P [a]) -> (forall a b, P [a; b]) ->
  (forall a b c l, P l -> P (a :: b :: c :: l)) ->
  forall l, P l.
Proof.
  intros H0 H1 H2 H3.
  assert (forall l, P l /\ (forall a, P (a :: l)) /\ (forall a b, P (a :: b :: l))) as H.
  { induction l as [|x l (IH0 & IH1 & IH2)]; [by auto|].
    repeat split; auto. }
  intros l. apply H.
Qed.

Lemma base64_value_char k :
  (k < 64)%nat -> base64_value (base64_char (N.of_nat k)) = Some (N.of_nat k).
Proof.
  intros Hk. do 64 (destruct k as [|k]; [reflexivity|]). lia.
Qed.

Lemma base64_char_plain k :
  (k < 64)%nat ->
  base64_char (N.of_nat k) <> "=" /\ isAsciiWhitespace (base64_char (N.of_nat k)) = false.
Proof.
  intros Hk. do 64 (destruct k as [|k]; [by split|]). lia.
Qed.

Lemma base64_values_chars l :
  Forall sextet l -> base64_values (map base64_char l) = Some l.
Proof.
  induction 1 as [|n l Hn _ IH]; [done|]. cbn [map base64_values].
  rewrite <- (N2Nat.id n), base64_value_char, IH; [done|]. unfold sextet in Hn. lia.
Qed.

Ltac euclid := zify; Z.to_euclidean_division_equations; lia.

Lemma sextets_of_bytes_sextet l : Forall octet l -> Forall sextet (sextets_of_bytes l).
Proof.
  induction l as [|a|a b|a b c l IH] using list_ind3; intros Ho;
    cbn [sextets_of_bytes]; repeat (apply Forall_cons_1 in Ho as [? Ho]);
    unfold octet, sextet in *; repeat (constructor; [euclid|]); auto.
Qed.

Lemma bytes_of_sextets_of_bytes l :
  Forall octet l -> bytes_of_sextets (sextets_of_bytes l) = l.
Proof.
  induction l as [|a|a b|a b c l IH] using list_ind3; intros Ho;
    cbn [sextets_of_bytes bytes_of_sextets];
    repeat (apply Forall_cons_1 in Ho as [? Ho]); unfold octet in *.
  - done.
  - f_equal. euclid.
  - f_equal; [euclid|]. f_equal. euclid.
  - rewrite IH by done. f_equal; [euclid|]. f_equal; [euclid|]. f_equal. euclid.
Qed.

(** How many groups the encoding has, against the number of bytes. *)
Lemma sextets_of_bytes_length (l : list N) :
  ((length l mod 3 = 0 /\ length (sextets_of_bytes l) mod 4 = 0) \/
   (length l mod 3 = 1 /\ length (sextets_of_bytes l) mod 4 = 2) \/
   (length l mod 3 = 2 /\ length (sextets_of_bytes l) mod 4 = 3))%nat.
Proof.
  induction l as [|a|a b|a b c l IH] using list_ind3;
    cbn [sextets_of_bytes length]; [by left|by right; left|by right; right|].
  change (S (S (S (length l)))) with (3 + length l)%nat.
  change (S (S (S (S (length (sextets_of_bytes l)))))) with
    (4 + length (sextets_of_bytes l))%nat.
  rewrite (Nat.add_comm 3), (Nat.add_comm 4).
  rewrite (Nat.Div0.mod_add _ 1 3), (Nat.Div0.mod_add _ 1 4).
  exact IH.
Qed.

Lemma drop_padding_char_plain s :
  Forall (fun c => c <> "=") s -> drop_padding_char s = s.
Proof.
  intros Hs. unfold drop_padding_char.
  destruct (rev s) as [|c r] eqn:Hr; [done|].
  assert (c <> "=") as Hc.
  { apply Forall_rev in Hs. rewrite Hr in Hs. by apply Forall_cons_1 in Hs as [? _]. }
  apply Ascii.eqb_neq in Hc. by rewrite Hc.
Qed.

Lemma drop_padding_char_snoc s : drop_padding_char (s ++ ["="]) = s.
Proof.
  unfold drop_padding_char. rewrite rev_app_distr. cbn. apply rev_involutive.
Qed.

Lemma filter_all {A} (f : A -> bool) l :
  Forall (fun x => f x = true) l -> List.filter f l = l.
Proof.
  induction 1 as [|x l Hx _ IH]; [done|]. cbn. by rewrite Hx, IH.
Qed.

Lemma encoding_plain l :
  Forall sextet l ->
  Forall (fun c => c <> "=" /\ isAsciiWhitespace c = false) (map base64_char l).
Proof.
  induction 1 as [|n l Hn _ IH]; [by constructor|]. cbn [map]. constructor; [|done].
  rewrite <- (N2Nat.id n). apply base64_char_plain. unfold sextet in Hn. lia.
Qed.

Lemma atob_btoa s : atob (btoa s) = Some s.
Proof.
  unfold atob, btoa.
  set (bytes := map N_of_ascii s).
  assert (Forall octet bytes) as Ho.
  { unfold bytes. induction s as [|c s IH]; cbn [map]; constructor; [|done].
    apply N_ascii_bounded. }
  pose proof (sextets_of_bytes_sextet bytes Ho) as Hsx.
  pose proof (encoding_plain _ Hsx) as Hplain.
  set (enc := map base64_char (sextets_of_bytes bytes)) in *.
  assert (length s = length bytes) as Hlen by (unfold bytes; by rewrite length_map).
  assert (length enc = length (sextets_of_bytes bytes)) as Hlenc
    by (unfold enc; by rewrite length_map).
  assert (Forall (fun c => c <> "=") enc) as Hne
    by (eapply Forall_impl; [exact Hplain|]; by intros c [? _]).
  assert (List.filter (fun c => negb (isAsciiWhitespace c)) (enc ++ base64_padding (length s)) =
          enc ++ base64_padding (length s)) as ->.
  { apply filter_all, Forall_app. split.
    - eapply Forall_impl; [exact Hplain|]. by intros c [_ ->].
    - unfold base64_padding. destruct (length s mod 3)%nat as [|[|[|?]]]; by repeat constructor. }
  assert (strip_padding (enc ++ base64_padding (length s)) = enc) as ->.
  { unfold strip_padding, base64_padding. rewrite length_app, Hlen, Hlenc.
    destruct (sextets_of_bytes_length bytes) as [[-> Hm]|[[-> Hm]|[-> Hm]]]; cbn [length].
    - rewrite app_nil_r, Nat.add_0_r, Hm. change (0 =? 0)%nat with true. cbv iota.
      by rewrite !(drop_padding_char_plain enc).
    - rewrite Nat.Div0.add_mod, Hm. change ((2 + 2 mod 4) mod 4 =? 0)%nat with true.
      cbv iota.
      change (enc ++ ["="; "="]) with (enc ++ ["="] ++ ["="]). rewrite app_assoc.
      by rewrite !drop_padding_char_snoc.
    - rewrite Nat.Div0.add_mod, Hm. change ((3 + 1 mod 4) mod 4 =? 0)%nat with true.
      cbv iota.
      by rewrite drop_padding_char_snoc, (drop_padding_char_plain enc). }
  replace (length enc mod 4 =? 1)%nat with false.
  2:{ symmetry. apply Nat.eqb_neq. rewrite Hlenc.
      destruct (sextets_of_bytes_length bytes) as [[_ ->]|[[_ ->]|[_ ->]]]; done. }
  unfold enc. rewrite base64_values_chars by done.
  rewrite bytes_of_sextets_of_bytes by done.
  unfold bytes. rewrite map_map. f_equal.
  rewrite <- (map_id s) at 2. apply map_ext. intros c. apply ascii_N_embedding.
Qed.

(** ** Decimal digits *)

Lemma digits_chars d :
  Forall (fun c => c <> "," /\ isStrWhiteSpace c = false /\
                   Ascii.eqb c "-" = false /\ Ascii.eqb c "+" = false)
    (list_ascii_of_string (NilEmpty.string_of_uint d)).
Proof. induction d; cbn; constructor; done. Qed.

Lemma NilZero_string_of_uint_pos p :
  NilZero.string_of_uint (Pos.to_uint p) = NilEmpty.string_of_uint (Pos.to_uint p).
Proof.
  pose proof (DecimalPos.Unsigned.to_uint_nonnil p) as Hn.
  by destruct (Pos.to_uint p).
Qed.

Lemma digits_nonempty p : list_ascii_of_string (NilEmpty.string_of_uint (Pos.to_uint p)) <> [].
Proof.
  pose proof (DecimalPos.Unsigned.to_uint_nonnil p) as Hn.
  by destruct (Pos.to_uint p).
Qed.

Lemma NumberToString_chars z :
  Forall (fun c => c <> "," /\ isStrWhiteSpace c = false) (NumberToString z).
Proof.
  assert (forall d, Forall (fun c => c <> "," /\ isStrWhiteSpace c = false)
                      (list_ascii_of_string (NilEmpty.string_of_uint d))) as Hd.
  { intros d. eapply Forall_impl; [apply digits_chars|]. by intros c (? & ? & _). }
  unfold NumberToString. destruct z as [|p|p]; cbn [Z.to_int NilZero.string_of_int].
  - by repeat constructor.
  - rewrite NilZero_string_of_uint_pos. apply Hd.
  - rewrite NilZero_string_of_uint_pos. cbn. constructor; [done|]. apply Hd.
Qed.

Lemma digitsValue_acc d : forall p,
  digitsValue (list_ascii_of_string (NilEmpty.string_of_uint d)) (Z.pos p) =
  Some (Z.pos (Pos.of_uint_acc d p)).
Proof.
  induction d; intros p; cbn [NilEmpty.string_of_uint list_ascii_of_string
    digitsValue Pos.of_uint_acc]; [done|..];
    (change (digitValue _) with (Some 0) || change (digitValue _) with (Some 1)
     || change (digitValue _) with (Some 2) || change (digitValue _) with (Some 3)
     || change (digitValue _) with (Some 4) || change (digitValue _) with (Some 5)
     || change (digitValue _) with (Some 6) || change (digitValue _) with (Some 7)
     || change (digitValue _) with (Some 8) || change (digitValue _) with (Some 9));
    cbv iota beta; rewrite <- IHd; f_equal; lia.
Qed.

Lemma digitsValue_zero d :
  digitsValue (list_ascii_of_string (NilEmpty.string_of_uint d)) 0 =
  Some (Z.of_N (Pos.of_uint d)).
Proof.
  induction d; cbn [NilEmpty.string_of_uint list_ascii_of_string digitsValue Pos.of_uint];
    [done|..];
    (change (digitValue _) with (Some 0) || change (digitValue _) with (Some 1)
     || change (digitValue _) with (Some 2) || change (digitValue _) with (Some 3)
     || change (digitValue _) with (Some 4) || change (digitValue _) with (Some 5)
     || change (digitValue _) with (Some 6) || change (digitValue _) with (Some 7)
     || change (digitValue _) with (Some 8) || change (digitValue _) with (Some 9));
    cbv iota beta; first [exact IHd | apply digitsValue_acc].
Qed.

Lemma dropWhile_plain s :
  Forall (fun c => isStrWhiteSpace c = false) s -> dropWhile isStrWhiteSpace s = s.
Proof. destruct 1 as [|c s Hc _]; [done|]. cbn. by rewrite Hc. Qed.

Lemma trim_plain s : Forall (fun c => isStrWhiteSpace c = false) s -> trim s = s.
Proof.
  intros Hs. unfold trim. rewrite (dropWhile_plain s) by done.
  rewrite dropWhile_plain by by apply Forall_rev. apply rev_involutive.
Qed.

Lemma StringToNumber_NumberToString z :
  isSafeInteger z = true -> StringToNumber (NumberToString z) = Some z.
Proof.
  intros Hsafe. unfold StringToNumber. rewrite trim_plain.
  2:{ eapply Forall_impl; [apply NumberToString_chars|]. by intros c [_ ?]. }
  unfold NumberToString. destruct z as [|p|p]; cbn [Z.to_int NilZero.string_of_int].
  - reflexivity.
  - rewrite NilZero_string_of_uint_pos.
    pose proof (digits_chars (Pos.to_uint p)) as Hc.
    pose proof (digits_nonempty p) as Hn.
    pose proof (digitsValue_zero (Pos.to_uint p)) as Hv.
    destruct (list_ascii_of_string _) as [|c rest]; [done|].
    apply Forall_cons_1 in Hc as [(_ & _ & -> & ->) _].
    rewrite Hv, DecimalPos.Unsigned.of_to. cbn [option_map Z.of_N].
    change (1 * Z.pos p) with (Z.pos p). by rewrite Hsafe.
  - rewrite NilZero_string_of_uint_pos. cbn [list_ascii_of_string].
    pose proof (digits_nonempty p) as Hn.
    pose proof (digitsValue_zero (Pos.to_uint p)) as Hv.
    change (Ascii.eqb "-" "-") with true. cbv iota.
    destruct (list_ascii_of_string _) as [|c rest]; [done|].
    rewrite Hv, DecimalPos.Unsigned.of_to. cbn [option_map Z.of_N].
    change (-1 * Z.pos p) with (Z.neg p). by rewrite Hsafe.
Qed.

(** ** Splitting at commas *)

Lemma split_comma_plain s : Forall (fun c => c <> ",") s -> split_comma s = [s].
Proof.
  induction 1 as [|c s Hc _ IH]; [done|]. cbn [split_comma].
  apply Ascii.eqb_neq in Hc. by rewrite Hc, IH.
Qed.

Lemma split_comma_app s rest :
  Forall (fun c => c <> ",") s ->
  split_comma (s ++ comma ++ rest) = s :: split_comma rest.
Proof.
  induction 1 as [|c s Hc _ IH]; [done|]. cbn [app split_comma].
  apply Ascii.eqb_neq in Hc. by rewrite Hc, IH.
Qed.

Lemma startsWith_app p s : startsWith p (p ++ s) = true.
Proof. induction p as [|c p IH]; [done|]. cbn. by rewrite Ascii.eqb_refl, IH. Qed.

(** ** Round trip *)

(** C8. For attribute records whose four fields are safe integers,
    decrypting the encryption gives the record back, the encoded string
    starting with the tag; and on every string that does not start with
    the tag, decryption returns the all-zero record. *)
Theorem decrypt_encrypt_round_trip :
  (forall a,
      isSafeInteger (attack a) = true -> isSafeInteger (defense a) = true ->
      isSafeInteger (speed a) = true -> isSafeInteger (rarity a) = true ->
      startsWith tag (FHEEncryptAttributes a) = true /\
      FHEDecryptAttributes (FHEEncryptAttributes a) = Attributes a) /\
  (forall s,
      startsWith tag s = false ->
      FHEDecryptAttributes s =
        Attributes {| attack := 0; defense := 0; speed := 0; rarity := 0 |}).
Proof.
  split.
  - intros [a d s r] Ha Hd Hs Hr. cbn [attack defense speed rarity] in *.
    assert (forall z, Forall (fun c => c <> ",") (NumberToString z)) as Hplain.
    { intros z. eapply Forall_impl; [apply NumberToString_chars|]. by intros c [? _]. }
    unfold FHEDecryptAttributes, FHEEncryptAttributes.
    cbn [attack defense speed rarity].
    rewrite startsWith_app. split; [done|].
    change (skipn 4 (tag ++ ?x)) with x. rewrite atob_btoa.
    rewrite !split_comma_app, split_comma_plain by done.
    cbn [map]. by rewrite !StringToNumber_NumberToString.
  - intros s Hs. unfold FHEDecryptAttributes. by rewrite Hs.
Qed.
End Codec.

(** * The theorems on the concrete run *)

Section OnTheRun.
Let L := Plain.lib.
Let E := Plain.evm.
Let S := Demo.semantics.
Existing Instances L E S.

(** A call by address 2, which is not the owner, to [openBatch]. *)
Lemma revert_leaves_storage_untouched_witness :
  transact OpenBatch (Demo.at_ 2 100 0) Demo.deployed = Reverted Error.NotOwner /\
  storage_after OpenBatch (Demo.at_ 2 100 0) Demo.deployed = Demo.deployed.
Proof.
  assert (transact OpenBatch (Demo.at_ 2 100 0) Demo.deployed = Reverted Error.NotOwner)
    as H by (vm_compute; reflexivity).
  split; [exact H|].
  exact (proj1 (revert_leaves_storage_untouched _ _ _ _ H)).
Defined.

(** Fusing batch 2 right after it was opened, when it is still empty. *)
Lemma fuseNFTs_needs_two_entries_witness :
  numNFTs (rd (batches Demo.opened) 2) < 2 /\
  storage_after (FuseNFTs 2) (Demo.at_ 1 200 7) Demo.opened = Demo.opened.
Proof.
  assert (numNFTs (rd (batches Demo.opened) 2) < 2) as H by (vm_compute; reflexivity).
  split; [exact H|].
  apply (fuseNFTs_needs_two_entries 2 (Demo.at_ 1 200 7) Demo.opened H).
Defined.

(** A second callback for request 7 once it is fulfilled. *)
Lemma processed_is_final_witness :
  processed (rd (decryptionContexts Demo.fulfilled) 7) = true /\
  transact (MyCallback 7 Demo.cleartexts Demo.proof) (Demo.at_ 9 310 0) Demo.fulfilled =
    Reverted Error.ReplayAttempt /\
  processed (rd (decryptionContexts Demo.extended) 7) = true.
Proof.
  assert (processed (rd (decryptionContexts Demo.fulfilled) 7) = true) as H
    by (vm_compute; reflexivity).
  split; [exact H|]. split.
  - apply (proj1 (processed_is_final 7) Demo.fulfilled _ _ _ H).
  - apply (proj1 (proj2 (processed_is_final 7)) Demo.late_submission Demo.fulfilled H).
    repeat constructor. intros b Hb. discriminate Hb.
Defined.

(** The callback for request 7 after a third entry slipped into the batch. *)
Lemma mismatch_rejects_before_proof_witness :
  exists cts,
    averageCiphertexts (rd (batches Demo.tampered) 2) = Some cts /\
    _hashCiphertexts cts <> stateHash (rd (decryptionContexts Demo.tampered) 7) /\
    transact (MyCallback 7 Demo.cleartexts Demo.proof) (Demo.at_ 9 500 0) Demo.tampered =
      Reverted Error.StateMismatch.
Proof.
  assert (reachable Demo.tampered) as Hr.
  { unfold Demo.tampered, Demo.requested, Demo.submitted, Demo.opened, Demo.run.
    repeat apply reachable_run. apply reachable_deploy. }
  destruct (mismatch_rejects_before_proof Demo.tampered 7 (Demo.at_ 9 500 0)
              Demo.cleartexts Demo.proof Hr) as (cts & Hcts & Hrev).
  exists cts.
  assert (cts = [Plain.handle 41; Plain.handle 48; Plain.handle 53]) as ->.
  { assert (Some cts = Some [Plain.handle 41; Plain.handle 48; Plain.handle 53]) as Heq
      by (rewrite <- Hcts; vm_compute; reflexivity).
    by injection Heq. }
  assert (_hashCiphertexts [Plain.handle 41; Plain.handle 48; Plain.handle 53] <>
          stateHash (rd (decryptionContexts Demo.tampered) 7)) as Hne
    by (vm_compute; discriminate).
  split; [vm_compute; reflexivity|]. split; [exact Hne|].
  apply Hrev in Hne. exact Hne.
Defined.

(** C1 as stated fails once the request is fulfilled: request 7 was
    created by [fuseNFTs], a third entry has since changed the batch, so the
    recomputed commitment differs from the stored one, and the callback
    reverts with [ReplayAttempt], not [StateMismatch]. *)
Lemma mismatch_after_fulfilment_is_replay :
  let s := Demo.extended in
  let ctx := rd (decryptionContexts s) 7 in
  reachable s /\
  is_Some (decryptionContexts s !! 7) /\
  (exists cts, averageCiphertexts (rd (batches s) (batchId ctx)) = Some cts /\
               _hashCiphertexts cts <> stateHash ctx) /\
  transact (MyCallback 7 Demo.cleartexts Demo.proof) (Demo.at_ 9 500 0) s =
    Reverted Error.ReplayAttempt /\
  transact (MyCallback 7 Demo.cleartexts Demo.proof) (Demo.at_ 9 500 0) s <>
    Reverted Error.StateMismatch.
Proof.
  cbv zeta. split; [|split; [|split; [|split]]].
  - unfold Demo.extended, Demo.fulfilled, Demo.requested, Demo.submitted, Demo.opened,
      Demo.run.
    repeat apply reachable_run. apply reachable_deploy.
  - vm_compute. eauto.
  - exists [Plain.handle 41; Plain.handle 48; Plain.handle 53].
    split; [vm_compute; reflexivity|vm_compute; discriminate].
  - vm_compute. reflexivity.
  - vm_compute. discriminate.
Qed.

(** The averages of batch 2 with its two entries (10, 20, 30) and
    (13, 25, 31): 11, 22 and 30. *)
Lemma fused_average_is_truncated_mean_witness :
  2 <= numNFTs (rd (batches Demo.submitted) 2) /\
  exists h1 h2 h3,
    averageHandles (rd (batches Demo.submitted) 2) = Some (h1, h2, h3) /\
    FHE.decrypt h1 = 11 /\ FHE.decrypt h2 = 22 /\ FHE.decrypt h3 = 30.
Proof.
  assert (2 <= numNFTs (rd (batches Demo.submitted) 2)) as Hn by (vm_compute; discriminate).
  split; [exact Hn|].
  destruct (fused_average_is_truncated_mean Demo.submitted 2 Hn) as
    (h1 & h2 & h3 & Hav & H1 & H2 & H3 & _).
  - intros i Hi. change (numNFTs (rd (batches Demo.submitted) 2)) with 2 in Hi.
    assert (i = 0 \/ i = 1) as [-> | ->] by lia; vm_compute; reflexivity.
  - vm_compute. discriminate.
  - exists h1, h2, h3. split; [exact Hav|].
    split; [exact H1|]. split; [exact H2|exact H3].
Defined.

(** The whole scenario from the state in which address 2 is a provider:
    (10, 20, 30) and (13, 25, 31) fuse into (11, 22, 30), and the token is
    the first one. *)
Lemma fusion_round_trip_witness :
  let s := storage_after (AddProvider 2) (Demo.at_ 1 50 0) Demo.deployed in
  let s1 := storage_after OpenBatch (Demo.at_ 1 60 0) s in
  let s2 := storage_after (SubmitNFT (Demo.h 10) (Demo.h 20) (Demo.h 30)) (Demo.at_ 1 100 0) s1 in
  let s3 := storage_after (SubmitNFT (Demo.h 13) (Demo.h 25) (Demo.h 31)) (Demo.at_ 2 110 0) s2 in
  let s4 := storage_after (FuseNFTs 2) (Demo.at_ 1 200 7) s3 in
  let s5 := storage_after (MyCallback 7 Demo.cleartexts Demo.proof) (Demo.at_ 9 300 0) s4 in
  msg_sender (Demo.at_ 1 100 0) <> msg_sender (Demo.at_ 2 110 0) /\
  transact (FuseNFTs 2) (Demo.at_ 1 200 7) s3 =
    Committed s4
      [RequestDecryption [Demo.h 11; Demo.h 22; Demo.h 30];
       Emit (Event.FusionRequested 7 2
               (_hashCiphertexts [Demo.h 11; Demo.h 22; Demo.h 30]))] /\
  Demo.cleartexts = abi_encode_uint256s [11; 22; 30] /\
  transact (MyCallback 7 Demo.cleartexts Demo.proof) (Demo.at_ 9 300 0) s4 =
    Committed s5 [Emit (Event.FusionCompleted 7 2 1 (11, 22, 30))] /\
  transact (MyCallback 7 Demo.cleartexts Demo.proof) (Demo.at_ 9 310 0) s5 =
    Reverted Error.ReplayAttempt.
Proof.
  intros s s1 s2 s3 s4 s5.
  assert (reachable s) as Hr by (apply reachable_call, reachable_deploy).
  assert (msg_sender (Demo.at_ 1 100 0) <> msg_sender (Demo.at_ 2 110 0)) as Hne
    by (cbn; discriminate).
  assert (currentBatchId s + 1 = 2) as Hid by (vm_compute; reflexivity).
  assert (Demo.cleartexts = abi_encode_uint256s [11; 22; 30]) as Hct
    by (vm_compute; reflexivity).
  split; [exact Hne|].
  destruct (fusion_round_trip s
              (Demo.at_ 1 60 0) (Demo.at_ 1 100 0) (Demo.at_ 2 110 0) (Demo.at_ 1 200 7)
              (Demo.at_ 9 300 0) (Demo.at_ 9 310 0)
              (Demo.h 10) (Demo.h 20) (Demo.h 30) (Demo.h 13) (Demo.h 25) (Demo.h 31)
              Demo.proof Demo.cleartexts Demo.proof Hr)
    as (h1 & h2 & h3 & _ & _ & _ & Hfuse & Hm1 & Hm2 & Hm3 & Htok & Hcb).
  - vm_compute; reflexivity.
  - vm_compute; discriminate.
  - vm_compute; reflexivity.
  - exact Hne.
  - vm_compute; reflexivity.
  - vm_compute; reflexivity.
  - vm_compute; reflexivity.
  - split; vm_compute; discriminate.
  - split; vm_compute; discriminate.
  - split; vm_compute; discriminate.
  - vm_compute; reflexivity.
  - vm_compute; reflexivity.
  - vm_compute; reflexivity.
  - vm_compute; reflexivity.
  - vm_compute; reflexivity.
  - vm_compute; reflexivity.
  - vm_compute; discriminate.
  - assert (h1 = Demo.h 11) as ->
      by (change (h1 - 1 = 11) in Hm1; unfold Demo.h, Plain.handle; lia).
    assert (h2 = Demo.h 22) as ->
      by (change (h2 - 1 = 22) in Hm2; unfold Demo.h, Plain.handle; lia).
    assert (h3 = Demo.h 30) as ->
      by (change (h3 - 1 = 30) in Hm3; unfold Demo.h, Plain.handle; lia).
    rewrite Hid in Hfuse, Hcb.
    change (requestId (Demo.at_ 1 200 7)) with 7 in Hfuse, Hcb.
    match type of Hcb with
    | context [abi_encode_uint256s ?ps] =>
        assert (abi_encode_uint256s ps = Demo.cleartexts) as Henc
          by (vm_compute; reflexivity);
        rewrite Henc in Hcb
    end.
    match type of Hcb with
    | context [Event.FusionCompleted _ _ (lastTokenId ?st + 1) (?m1, ?m2, ?m3)] =>
        assert (lastTokenId st + 1 = 1) as Hone by (vm_compute; reflexivity);
        assert (m1 = 11) as H11 by (vm_compute; reflexivity);
        assert (m2 = 22) as H22 by (vm_compute; reflexivity);
        assert (m3 = 30) as H30 by (vm_compute; reflexivity);
        rewrite Hone, H11, H22, H30 in Hcb
    end.
    split; [exact Hfuse|]. split; [exact Hct|].
    apply Hcb. vm_compute; reflexivity.
Defined.

(** The second submission of the run: batch 2 keeps its first entry. *)
Lemma batches_owner_gated_append_only_witness :
  let c := SubmitNFT (Demo.h 13) (Demo.h 25) (Demo.h 31) in
  let env := Demo.at_ 2 110 0 in
  let s := Demo.run [(SubmitNFT (Demo.h 10) (Demo.h 20) (Demo.h 30), Demo.at_ 1 100 0)]
             Demo.opened in
  let s' := storage_after c env s in
  0 <= 0 < numNFTs (rd (batches s) 2) /\
  numNFTs (rd (batches s) 2) <= numNFTs (rd (batches s') 2) /\
  rd (nftOwners (rd (batches s') 2)) 0 = rd (nftOwners (rd (batches s) 2)) 0 /\
  rd (nftData (rd (batches s') 2)) 0 = rd (nftData (rd (batches s) 2)) 0.
Proof.
  intros c env s s'.
  assert (reachable s) as Hr.
  { unfold s, Demo.opened, Demo.run. repeat apply reachable_run. apply reachable_deploy. }
  assert (0 <= 0 < numNFTs (rd (batches s) 2)) as Hi by (vm_compute; split; [discriminate|reflexivity]).
  destruct (batches_owner_gated_append_only s c env Hr) as (_ & _ & Hcount & Hkeep & _).
  split; [exact Hi|]. split; [apply Hcount|]. apply (Hkeep 2 0 Hi).
Defined.

(** A callback for request id 42, which no fusion ever returned. *)
Lemma unrecorded_request_is_rejected_witness :
  decryptionContexts Demo.requested !! 42 = None /\
  transact (MyCallback 42 Demo.cleartexts Demo.proof) (Demo.at_ 9 300 0) Demo.requested =
    Reverted Error.StateMismatch.
Proof.
  assert (decryptionContexts Demo.requested !! 42 = None) as Hn by (vm_compute; reflexivity).
  split; [exact Hn|].
  apply (unrecorded_request_is_rejected Demo.requested 42 (Demo.at_ 9 300 0)
           Demo.cleartexts Demo.proof).
  - unfold Demo.requested, Demo.submitted, Demo.opened, Demo.run.
    repeat apply reachable_run. apply reachable_deploy.
  - exact Hn.
  - vm_compute. discriminate.
Defined.

(** Batch 2 once batch 3 is open: later submissions go to batch 3. *)
Lemma earlier_batches_are_frozen_witness :
  let s := storage_after OpenBatch (Demo.at_ 1 500 0) Demo.fulfilled in
  let tr := [(SubmitNFT (Demo.h 1) (Demo.h 2) (Demo.h 3), Demo.at_ 1 600 0);
             (CloseBatch, Demo.at_ 1 700 0)] in
  2 < currentBatchId s /\
  batches (run tr s) !! 2 = batches s !! 2.
Proof.
  cbv zeta.
  assert (2 < currentBatchId (storage_after OpenBatch (Demo.at_ 1 500 0) Demo.fulfilled))
    as H by (vm_compute; reflexivity).
  split; [exact H|].
  apply (proj1 earlier_batches_are_frozen _ _ 2 H).
Defined.

(** A record with a negative field, a zero and the largest safe integer. *)
Lemma decrypt_encrypt_round_trip_witness :
  let a := {| attack := 12; defense := -7; speed := 0; rarity := 9007199254740991 |} in
  isSafeInteger (rarity a) = true /\
  FHEDecryptAttributes (FHEEncryptAttributes a) = Attributes a /\
  FHEDecryptAttributes (list_ascii_of_string "fhe-MSwyLDMsNA==") =
    Attributes {| attack := 0; defense := 0; speed := 0; rarity := 0 |}.
Proof.
  cbv zeta. split; [reflexivity|]. split.
  - apply (proj1 decrypt_encrypt_round_trip); reflexivity.
  - apply (proj2 decrypt_encrypt_round_trip). reflexivity.
Defined.
End OnTheRun.

(** * More about the contract *)

Section ContractMore.
Context {L : FHE.Lib} {E : EVM}.

(** ** Bodies as decision lists *)

Lemma bind_revert_if {B} c e (f : unit -> M B) s :
  bind (revert_if c e) f s = if c then Rev e s else f tt s.
Proof. destruct c; [done|]. by apply bind_revert_if_false. Qed.

Lemma bind_checked_add_cases {B} x y (f : uint256 -> M B) s :
  bind (checked_add x y) f s =
  if x + y >? MAX_UINT256 then Rev Error.Panic s else f (x + y) s.
Proof.
  destruct (x + y >? MAX_UINT256) eqn:Hc.
  - unfold checked_add. by rewrite Hc.
  - apply bind_checked_add. rewrite Z.gtb_ltb in Hc. by apply Z.ltb_ge.
Qed.

Lemma bind_average_cases {B} b (f : list bytes32 -> M B) s :
  bind (average b) f s =
  match averageCiphertexts b with
  | None => Rev Error.InvalidNFT s
  | Some cts => f cts s
  end.
Proof.
  destruct (averageCiphertexts b) as [cts|] eqn:Hb.
  - by apply bind_average_Some.
  - unfold average. by rewrite Hb.
Qed.

Lemma bind_onlyOwner_cases {B} env (f : unit -> M B) s :
  bind (onlyOwner env) f s =
  if msg_sender env =? owner s then f tt s else Rev Error.NotOwner s.
Proof.
  destruct (msg_sender env =? owner s) eqn:Ho.
  - apply bind_onlyOwner. by apply Z.eqb_eq.
  - apply bind_onlyOwner_other. by apply Z.eqb_neq.
Qed.

Lemma bind_onlyProvider_cases {B} env (f : unit -> M B) s :
  bind (onlyProvider env) f s =
  if rd (isProvider s) (msg_sender env) then f tt s else Rev Error.NotProvider s.
Proof.
  destruct (rd (isProvider s) (msg_sender env)) eqn:Hp.
  - by apply bind_onlyProvider.
  - unfold onlyProvider, bind at 1. rewrite bind_load. by rewrite Hp.
Qed.

Lemma bind_whenNotPaused_cases {B} (f : unit -> M B) s :
  bind whenNotPaused f s = if paused s then Rev Error.Paused s else f tt s.
Proof.
  destruct (paused s) eqn:Hp.
  - unfold whenNotPaused, bind at 1. rewrite bind_load. by rewrite Hp.
  - by apply bind_whenNotPaused.
Qed.

Lemma bind_checkCooldown_cases {B} (isSubmission : bool) env (f : unit -> M B) s :
  let cooldown :=
    if isSubmission then rd (lastSubmissionTime s) (msg_sender env)
    else rd (lastRequestTime s) (msg_sender env) in
  bind (checkCooldown isSubmission env) f s =
  if cooldown + cooldownSeconds s >? MAX_UINT256 then Rev Error.Panic s
  else if block_timestamp env <? cooldown + cooldownSeconds s then Rev Error.CooldownActive s
  else f tt s.
Proof.
  intros cooldown.
  destruct (cooldown + cooldownSeconds s >? MAX_UINT256) eqn:Hmax.
  - unfold checkCooldown, bind at 1. rewrite bind_load. fold cooldown.
    unfold checked_add, bind. by rewrite Hmax.
  - rewrite Z.gtb_ltb in Hmax. apply Z.ltb_ge in Hmax.
    destruct (block_timestamp env <? cooldown + cooldownSeconds s) eqn:Hts.
    + unfold checkCooldown, bind at 1. rewrite bind_load. fold cooldown.
      rewrite bind_checked_add by done. by rewrite Hts.
    + apply bind_checkCooldown; [done|]. by apply Z.ltb_ge.
Qed.

(** [submitNFT] as the list of its guards, in the order they are tested. *)
Lemma submitNFT_cases a1 a2 a3 env s :
  let sender := msg_sender env in
  let last := rd (lastSubmissionTime s) sender in
  let cur := currentBatchId s in
  let b := rd (batches s) cur in
  transact (SubmitNFT a1 a2 a3) env s =
  if negb (rd (isProvider s) sender) then Reverted Error.NotProvider
  else if paused s then Reverted Error.Paused
  else if last + cooldownSeconds s >? MAX_UINT256 then Reverted Error.Panic
  else if block_timestamp env <? last + cooldownSeconds s then Reverted Error.CooldownActive
  else if negb (isOpen b) then Reverted Error.BatchClosed
  else if negb (FHE.isInitialized a1) || negb (FHE.isInitialized a2)
          || negb (FHE.isInitialized a3) then Reverted Error.NotInitialized
  else if numNFTs b + 1 >? MAX_UINT256 then Reverted Error.Panic
  else
    Committed
      (set_lastSubmissionTime
         (<[sender := block_timestamp env]> (lastSubmissionTime s))
         (set_batches
            (<[cur := {| isOpen := isOpen b;
                         numNFTs := numNFTs b + 1;
                         nftOwners := <[numNFTs b := sender]> (nftOwners b);
                         nftData := <[numNFTs b := {| attr1 := a1; attr2 := a2; attr3 := a3;
                                                      initialized := true |}]> (nftData b) |}]>
               (batches s)) s))
      [Emit (Event.NFTSubmitted sender (numNFTs b) cur)].
Proof.
  intros sender last cur b.
  destruct (rd (isProvider s) sender) eqn:Hp; cbn [negb].
  2:{ unfold transact. cbn [body]. unfold submitNFT.
      rewrite bind_onlyProvider_cases. fold sender. by rewrite Hp. }
  destruct (paused s) eqn:Hpa.
  { unfold transact. cbn [body]. unfold submitNFT.
    rewrite bind_onlyProvider_cases, bind_whenNotPaused_cases. fold sender.
    by rewrite Hp, Hpa. }
  destruct (last + cooldownSeconds s >? MAX_UINT256) eqn:Hmax.
  { unfold transact. cbn [body]. unfold submitNFT.
    rewrite bind_onlyProvider_cases, bind_whenNotPaused_cases, bind_checkCooldown_cases.
    fold sender last. by rewrite Hp, Hpa, Hmax. }
  destruct (block_timestamp env <? last + cooldownSeconds s) eqn:Hts.
  { unfold transact. cbn [body]. unfold submitNFT.
    rewrite bind_onlyProvider_cases, bind_whenNotPaused_cases, bind_checkCooldown_cases.
    fold sender last. by rewrite Hp, Hpa, Hmax, Hts. }
  destruct (isOpen b) eqn:Hopen; cbn [negb].
  2:{ unfold transact. cbn [body]. unfold submitNFT.
      rewrite bind_onlyProvider_cases, bind_whenNotPaused_cases, bind_checkCooldown_cases.
      fold sender last. rewrite Hp, Hpa, Hmax, Hts.
      rewrite bind_load, bind_revert_if. fold cur b. by rewrite Hopen. }
  destruct (negb (FHE.isInitialized a1) || negb (FHE.isInitialized a2)
            || negb (FHE.isInitialized a3)) eqn:Hinit.
  { unfold transact. cbn [body]. unfold submitNFT.
    rewrite bind_onlyProvider_cases, bind_whenNotPaused_cases, bind_checkCooldown_cases.
    fold sender last. rewrite Hp, Hpa, Hmax, Hts.
    rewrite bind_load, bind_revert_if. fold cur b. rewrite Hopen. cbn [negb].
    rewrite bind_revert_if. by rewrite Hinit. }
  destruct (numNFTs b + 1 >? MAX_UINT256) eqn:Hn.
  { unfold transact. cbn [body]. unfold submitNFT.
    rewrite bind_onlyProvider_cases, bind_whenNotPaused_cases, bind_checkCooldown_cases.
    fold sender last. rewrite Hp, Hpa, Hmax, Hts.
    rewrite bind_load, bind_revert_if. fold cur b. rewrite Hopen. cbn [negb].
    rewrite bind_revert_if, Hinit, !bind_write_batch, bind_checked_add_cases.
    by rewrite Hn. }
  rewrite Z.gtb_ltb in Hmax, Hn. apply Z.ltb_ge in Hmax, Hn, Hts.
  apply orb_false_iff in Hinit as [Hinit H3]. apply orb_false_iff in Hinit as [H1 H2].
  apply negb_false_iff in H1, H2, H3.
  rewrite submitNFT_commits by done. cbv zeta. fold sender cur b. by rewrite Hopen.
Qed.

(** [fuseNFTs] as the list of its guards. *)
Lemma fuseNFTs_cases b env s :
  let sender := msg_sender env in
  let last := rd (lastRequestTime s) sender in
  let batch := rd (batches s) b in
  transact (FuseNFTs b) env s =
  if negb (rd (isProvider s) sender) then Reverted Error.NotProvider
  else if paused s then Reverted Error.Paused
  else if last + cooldownSeconds s >? MAX_UINT256 then Reverted Error.Panic
  else if block_timestamp env <? last + cooldownSeconds s then Reverted Error.CooldownActive
  else if (b =? 0) || (b >? currentBatchId s) then Reverted Error.InvalidBatch
  else if numNFTs batch <? 2 then Reverted Error.NotEnoughNFTs
  else
    match averageCiphertexts batch with
    | None => Reverted Error.InvalidNFT
    | Some cts =>
        Committed
          (set_lastRequestTime
             (<[sender := block_timestamp env]> (lastRequestTime s))
             (set_decryptionContexts
                (<[requestId env := {| batchId := b; stateHash := _hashCiphertexts cts;
                                       processed := false |}]> (decryptionContexts s)) s))
          [RequestDecryption cts;
           Emit (Event.FusionRequested (requestId env) b (_hashCiphertexts cts))]
    end.
Proof.
  intros sender last batch.
  unfold transact. cbn [body]. unfold fuseNFTs.
  rewrite bind_onlyProvider_cases. fold sender.
  destruct (rd (isProvider s) sender); cbn [negb]; [|done].
  rewrite bind_whenNotPaused_cases. destruct (paused s); [done|].
  rewrite bind_checkCooldown_cases. fold sender last.
  destruct (last + cooldownSeconds s >? MAX_UINT256); [done|].
  destruct (block_timestamp env <? last + cooldownSeconds s); [done|].
  rewrite bind_load, bind_revert_if.
  destruct ((b =? 0) || (b >? currentBatchId s)); [done|].
  rewrite bind_revert_if. fold batch.
  destruct (numNFTs batch <? 2); [done|].
  rewrite bind_average_cases.
  destruct (averageCiphertexts batch) as [cts|]; [|done].
  rewrite bind_external, !bind_store. done.
Qed.

(** [myCallback] as the list of its guards. *)
Lemma myCallback_cases r cleartexts proof env s :
  let ctx := rd (decryptionContexts s) r in
  transact (MyCallback r cleartexts proof) env s =
  if processed ctx then Reverted Error.ReplayAttempt
  else
    match averageCiphertexts (rd (batches s) (batchId ctx)) with
    | None => Reverted Error.InvalidNFT
    | Some cts =>
        if negb (_hashCiphertexts cts =? stateHash ctx) then Reverted Error.StateMismatch
        else if negb (FHE.checkSignatures r cleartexts proof) then Reverted Error.LibraryRevert
        else if (length cleartexts <? 96)%nat then Reverted Error.DecodeFailure
        else if lastTokenId s + 1 >? MAX_UINT256 then Reverted Error.Panic
        else
          Committed
            (set_decryptionContexts
               (<[r := set_processed true ctx]> (decryptionContexts s))
               (set_lastTokenId (lastTokenId s + 1) s))
            [Emit (Event.FusionCompleted r (batchId ctx) (lastTokenId s + 1)
                     (word 0 cleartexts, word 1 cleartexts, word 2 cleartexts))]
    end.
Proof.
  intros ctx.
  destruct (processed ctx) eqn:Hp.
  { unfold transact. cbn [body]. by rewrite myCallback_replay. }
  destruct (averageCiphertexts (rd (batches s) (batchId ctx))) as [cts|] eqn:Hav.
  2:{ unfold transact. cbn [body]. unfold myCallback.
      rewrite bind_load, bind_revert_if. fold ctx. rewrite Hp.
      rewrite bind_average_cases. by rewrite Hav. }
  destruct (negb (_hashCiphertexts cts =? stateHash ctx)) eqn:Hh.
  { unfold transact. cbn [body]. rewrite (myCallback_mismatch _ _ _ _ cts); try done.
    by apply negb_true_iff, Z.eqb_neq in Hh. }
  apply negb_false_iff, Z.eqb_eq in Hh.
  destruct (negb (FHE.checkSignatures r cleartexts proof)) eqn:Hsig.
  { unfold transact. cbn [body]. unfold myCallback.
    rewrite bind_load, bind_revert_if. fold ctx. rewrite Hp.
    rewrite bind_average_cases, Hav, bind_revert_if, Hh, Z.eqb_refl. cbn [negb].
    rewrite bind_revert_if. by rewrite Hsig. }
  destruct (length cleartexts <? 96)%nat eqn:Hlen.
  { apply Nat.ltb_lt in Hlen.
    unfold transact. cbn [body]. unfold myCallback.
    rewrite bind_load, bind_revert_if. fold ctx. rewrite Hp.
    rewrite bind_average_cases, Hav, bind_revert_if, Hh, Z.eqb_refl. cbn [negb].
    rewrite bind_revert_if, Hsig.
    destruct (length cleartexts <? 32)%nat eqn:H32.
    { unfold abi_decode_uint256 at 1. rewrite H32. done. }
    apply Nat.ltb_ge in H32.
    rewrite bind_abi_decode_uint256, bind_slice_from by lia.
    destruct (length (skipn 32 cleartexts) <? 32)%nat eqn:H64.
    { unfold abi_decode_uint256 at 1. rewrite H64. done. }
    apply Nat.ltb_ge in H64. rewrite length_skipn in H64.
    rewrite bind_abi_decode_uint256 by (rewrite length_skipn; lia).
    rewrite bind_slice_from by lia.
    unfold abi_decode_uint256 at 1.
    replace (length (skipn 64 cleartexts) <? 32)%nat with true
      by (symmetry; apply Nat.ltb_lt; rewrite length_skipn; lia).
    done. }
  apply Nat.ltb_ge in Hlen. apply negb_false_iff in Hsig.
  destruct (lastTokenId s + 1 >? MAX_UINT256) eqn:Hmax.
  { unfold transact. cbn [body]. unfold myCallback.
    rewrite bind_load, bind_revert_if. fold ctx. rewrite Hp.
    rewrite bind_average_cases, Hav, bind_revert_if, Hh, Z.eqb_refl. cbn [negb].
    rewrite bind_revert_if, Hsig. cbn [negb].
    rewrite bind_abi_decode_uint256, bind_slice_from by lia.
    rewrite bind_abi_decode_uint256 by (rewrite length_skipn; lia).
    rewrite bind_slice_from by lia.
    rewrite bind_abi_decode_uint256 by (rewrite length_skipn; lia).
    rewrite bind_checked_add_cases. by rewrite Hmax. }
  rewrite Z.gtb_ltb in Hmax. apply Z.ltb_ge in Hmax.
  by apply (myCallback_commits r cleartexts proof cts).
Qed.

(** The owner's functions as decision lists. *)
Lemma addProvider_cases p env s :
  transact (AddProvider p) env s =
  if msg_sender env =? owner s
  then Committed (set_isProvider (<[p := true]> (isProvider s)) s) [Emit (Event.ProviderAdded p)]
  else Reverted Error.NotOwner.
Proof.
  unfold transact. cbn [body]. unfold addProvider. rewrite bind_onlyOwner_cases.
  destruct (msg_sender env =? owner s); [|done]. by rewrite bind_store.
Qed.

Lemma removeProvider_cases p env s :
  transact (RemoveProvider p) env s =
  if msg_sender env =? owner s
  then Committed (set_isProvider (delete p (isProvider s)) s) [Emit (Event.ProviderRemoved p)]
  else Reverted Error.NotOwner.
Proof.
  unfold transact. cbn [body]. unfold removeProvider. rewrite bind_onlyOwner_cases.
  destruct (msg_sender env =? owner s); [|done]. by rewrite bind_store.
Qed.

Lemma pause_cases env s :
  transact Pause env s =
  if msg_sender env =? owner s then
    if paused s then Reverted Error.Paused
    else Committed (set_paused true s) [Emit (Event.Paused (msg_sender env))]
  else Reverted Error.NotOwner.
Proof.
  unfold transact. cbn [body]. unfold pause. rewrite bind_onlyOwner_cases.
  destruct (msg_sender env =? owner s); [|done]. rewrite bind_whenNotPaused_cases.
  destruct (paused s); [done|]. by rewrite bind_store.
Qed.

Lemma unpause_cases env s :
  transact Unpause env s =
  if msg_sender env =? owner s
  then Committed (set_paused false s) [Emit (Event.Unpaused (msg_sender env))]
  else Reverted Error.NotOwner.
Proof.
  unfold transact. cbn [body]. unfold unpause. rewrite bind_onlyOwner_cases.
  destruct (msg_sender env =? owner s); [|done]. by rewrite bind_store.
Qed.

Lemma setCooldownSeconds_cases n env s :
  transact (SetCooldownSeconds n) env s =
  if msg_sender env =? owner s
  then Committed (set_cooldownSeconds n s) [Emit (Event.CooldownSet (cooldownSeconds s) n)]
  else Reverted Error.NotOwner.
Proof.
  unfold transact. cbn [body]. unfold setCooldownSeconds. rewrite bind_onlyOwner_cases.
  destruct (msg_sender env =? owner s); [|done].
  by rewrite bind_load, bind_emit.
Qed.

Lemma openBatch_cases env s :
  let next := currentBatchId s + 1 in
  transact OpenBatch env s =
  if msg_sender env =? owner s then
    if next >? MAX_UINT256 then Reverted Error.Panic
    else
      Committed
        (set_batches
           (<[next := set_numNFTs 0 (set_isOpen true (rd (batches s) next))]> (batches s))
           (set_currentBatchId next s))
        [Emit (Event.BatchOpened next)]
  else Reverted Error.NotOwner.
Proof.
  intros next.
  destruct (msg_sender env =? owner s) eqn:Ho.
  2:{ unfold transact. cbn [body]. unfold openBatch.
      rewrite bind_onlyOwner_cases. by rewrite Ho. }
  destruct (next >? MAX_UINT256) eqn:Hmax.
  - unfold transact. cbn [body]. unfold openBatch.
    rewrite bind_onlyOwner_cases, Ho, bind_load, bind_checked_add_cases.
    fold next. by rewrite Hmax.
  - apply Z.eqb_eq in Ho. rewrite Z.gtb_ltb in Hmax. apply Z.ltb_ge in Hmax.
    by apply openBatch_commits.
Qed.

Lemma closeBatch_cases env s :
  let cur := currentBatchId s in
  transact CloseBatch env s =
  if msg_sender env =? owner s then
    if negb (isOpen (rd (batches s) cur)) then Reverted Error.BatchClosed
    else
      Committed
        (set_batches (<[cur := set_isOpen false (rd (batches s) cur)]> (batches s)) s)
        [Emit (Event.BatchClosed cur)]
  else Reverted Error.NotOwner.
Proof.
  intros cur. unfold transact. cbn [body]. unfold closeBatch.
  rewrite bind_onlyOwner_cases.
  destruct (msg_sender env =? owner s); [|done].
  rewrite bind_load, bind_revert_if. fold cur.
  destruct (negb (isOpen (rd (batches s) cur))); [done|].
  by rewrite bind_write_batch.
Qed.

(** Unfold one call into its decision list. *)
Ltac by_cases c :=
  destruct c;
  [ rewrite addProvider_cases | rewrite removeProvider_cases | rewrite pause_cases
  | rewrite unpause_cases | rewrite setCooldownSeconds_cases | rewrite openBatch_cases
  | rewrite closeBatch_cases | rewrite submitNFT_cases | rewrite fuseNFTs_cases
  | rewrite myCallback_cases ];
  cbv zeta.

(** ** Ownership *)

Lemma owner_step c env s : owner (storage_after c env s) = owner s.
Proof.
  unfold storage_after. by_cases c; repeat case_match; simplify_eq; done.
Qed.

(** X1. No call changes the owner: along every sequence of calls the
    owner stays the deployer. *)
Theorem owner_never_changes tr s : owner (run tr s) = owner s.
Proof.
  revert s. induction tr as [|[c env] tr IH]; intros s; cbn [run]; [done|].
  by rewrite IH, owner_step.
Qed.

(** X2. A call that carries [onlyOwner] and comes from anyone else reverts
    with [NotOwner], whatever the state. *)
Theorem owner_calls_reject_others c env s :
  isOwnerCall c = true ->
  msg_sender env <> owner s ->
  transact c env s = Reverted Error.NotOwner.
Proof.
  intros Hc Hne. apply Z.eqb_neq in Hne.
  by_cases c; try discriminate Hc; by rewrite Hne.
Qed.

(** X3. The provider set, the pause flag, the cooldown length and the
    current batch id change only in a call that carries [onlyOwner] and
    comes from the owner. *)
Theorem settings_change_only_by_owner c env s :
  let s' := storage_after c env s in
  isProvider s' <> isProvider s \/ paused s' <> paused s \/
  cooldownSeconds s' <> cooldownSeconds s \/ currentBatchId s' <> currentBatchId s ->
  isOwnerCall c = true /\ msg_sender env = owner s.
Proof.
  intros s'. subst s'. unfold storage_after.
  by_cases c; repeat case_match; simplify_eq; cbn;
    intros [H|[H|[H|H]]]; try done; split; try done; by apply Z.eqb_eq.
Qed.

(** ** Pausing *)

(** X4. While the contract is paused, every [submitNFT] and every
    [fuseNFTs] reverts: with [Paused] for a provider, with [NotProvider]
    for anyone else. *)
Theorem paused_blocks_submit_and_fuse s :
  paused s = true ->
  (forall a1 a2 a3 env,
      transact (SubmitNFT a1 a2 a3) env s =
        Reverted (if rd (isProvider s) (msg_sender env)
                  then Error.Paused else Error.NotProvider)) /\
  (forall b env,
      transact (FuseNFTs b) env s =
        Reverted (if rd (isProvider s) (msg_sender env)
                  then Error.Paused else Error.NotProvider)).
Proof.
  intros Hp. split; intros.
  - rewrite submitNFT_cases. cbv zeta. rewrite Hp.
    by destruct (rd (isProvider s) (msg_sender env)).
  - rewrite fuseNFTs_cases. cbv zeta. rewrite Hp.
    by destruct (rd (isProvider s) (msg_sender env)).
Qed.

(** X5. The callback has no modifier: its outcome does not depend on the
    caller, on the block timestamp or on the pause flag; on a paused
    contract it commits or reverts exactly as on the unpaused one. *)
Theorem callback_ignores_pause_and_caller r cleartexts proof env env' p s :
  transact (MyCallback r cleartexts proof) env' (set_paused p s) =
  match transact (MyCallback r cleartexts proof) env s with
  | Committed s1 l => Committed (set_paused p s1) l
  | Reverted e => Reverted e
  end.
Proof.
  rewrite !myCallback_cases. cbn.
  repeat case_match; simplify_eq; done.
Qed.

(** X6. [pause] reverts with [Paused] when the contract is already paused,
    also for the owner, while [unpause] by the owner commits in every
    state and leaves the contract unpaused. *)
Theorem pause_is_guarded_unpause_is_not env s :
  msg_sender env = owner s ->
  (paused s = true -> transact Pause env s = Reverted Error.Paused) /\
  (paused s = false ->
   transact Pause env s = Committed (set_paused true s) [Emit (Event.Paused (msg_sender env))]) /\
  transact Unpause env s =
    Committed (set_paused false s) [Emit (Event.Unpaused (msg_sender env))].
Proof.
  intros Ho. rewrite pause_cases, unpause_cases, Ho, Z.eqb_refl.
  repeat split; by intros ->.
Qed.

(** ** Cooldowns *)

Lemma submitNFT_Committed a1 a2 a3 env s s1 l :
  transact (SubmitNFT a1 a2 a3) env s = Committed s1 l ->
  rd (isProvider s) (msg_sender env) = true /\ paused s = false /\
  isOpen (rd (batches s) (currentBatchId s)) = true /\
  owner s1 = owner s /\ isProvider s1 = isProvider s /\ paused s1 = paused s /\
  cooldownSeconds s1 = cooldownSeconds s /\
  lastSubmissionTime s1 = <[msg_sender env := block_timestamp env]> (lastSubmissionTime s) /\
  lastRequestTime s1 = lastRequestTime s /\
  currentBatchId s1 = currentBatchId s /\
  decryptionContexts s1 = decryptionContexts s /\ lastTokenId s1 = lastTokenId s.
Proof.
  intros Ht. rewrite submitNFT_cases in Ht. cbv zeta in Ht.
  repeat case_match; simplify_eq. cbn.
  repeat split; try done; by apply negb_false_iff.
Qed.

Lemma fuseNFTs_Committed b env s s1 l :
  transact (FuseNFTs b) env s = Committed s1 l ->
  rd (isProvider s) (msg_sender env) = true /\ paused s = false /\
  cooldownOver (lastRequestTime s) s env /\
  b <> 0 /\ b <= currentBatchId s /\ 2 <= numNFTs (rd (batches s) b) /\
  exists cts,
    averageCiphertexts (rd (batches s) b) = Some cts /\
    l = [RequestDecryption cts;
         Emit (Event.FusionRequested (requestId env) b (_hashCiphertexts cts))] /\
    s1 = set_lastRequestTime
           (<[msg_sender env := block_timestamp env]> (lastRequestTime s))
           (set_decryptionContexts
              (<[requestId env := {| batchId := b; stateHash := _hashCiphertexts cts;
                                     processed := false |}]> (decryptionContexts s)) s).
Proof.
  intros Ht. rewrite fuseNFTs_cases in Ht. cbv zeta in Ht.
  repeat case_match; simplify_eq.
  repeat match goal with
         | H : negb _ = false |- _ => apply negb_false_iff in H
         | H : _ || _ = false |- _ => apply orb_false_iff in H as [? ?]
         | H : (_ =? _) = false |- _ => apply Z.eqb_neq in H
         | H : (_ <? _) = false |- _ => apply Z.ltb_ge in H
         | H : (_ >? _) = false |- _ => rewrite Z.gtb_ltb in H
         end.
  unfold cooldownOver. repeat split; try done. eauto.
Qed.

(** X7. After a submission that committed at time [t], a further
    submission by the same sender before [t + cooldownSeconds] reverts: with
    [CooldownActive], or with a panic when that sum overflows. The request
    timestamps are not touched by a submission. *)
Theorem submission_cooldown a1 a2 a3 b1 b2 b3 env env' s s1 l :
  transact (SubmitNFT a1 a2 a3) env s = Committed s1 l ->
  msg_sender env' = msg_sender env ->
  block_timestamp env' < block_timestamp env + cooldownSeconds s ->
  transact (SubmitNFT b1 b2 b3) env' s1 =
    Reverted (if block_timestamp env + cooldownSeconds s >? MAX_UINT256
              then Error.Panic else Error.CooldownActive) /\
  lastRequestTime s1 = lastRequestTime s.
Proof.
  intros Ht Hs Hlt.
  apply submitNFT_Committed in Ht
    as (Hp & Hpa & _ & _ & Hp1 & Hpa1 & Hcd & Hlast & Hreq & _).
  split; [|done].
  rewrite submitNFT_cases. cbv zeta.
  rewrite Hp1, Hpa1, Hcd, Hlast, Hs, rd_insert_eq, Hp, Hpa. cbn [negb].
  destruct (block_timestamp env + cooldownSeconds s >? MAX_UINT256); [done|].
  by replace (block_timestamp env' <? block_timestamp env + cooldownSeconds s) with true
    by (symmetry; by apply Z.ltb_lt).
Qed.

(** X8. The same for fusion requests: after a request that committed at
    time [t], a further request by the same sender before
    [t + cooldownSeconds] reverts, and the submission timestamps are not
    touched by a request. *)
Theorem request_cooldown b b' env env' s s1 l :
  transact (FuseNFTs b) env s = Committed s1 l ->
  msg_sender env' = msg_sender env ->
  block_timestamp env' < block_timestamp env + cooldownSeconds s ->
  transact (FuseNFTs b') env' s1 =
    Reverted (if block_timestamp env + cooldownSeconds s >? MAX_UINT256
              then Error.Panic else Error.CooldownActive) /\
  lastSubmissionTime s1 = lastSubmissionTime s.
Proof.
  intros Ht Hs Hlt.
  apply fuseNFTs_Committed in Ht as (Hp & Hpa & _ & _ & _ & _ & cts & _ & _ & ->).
  split; [|done].
  rewrite fuseNFTs_cases. cbn.
  rewrite Hs, rd_insert_eq, Hp, Hpa. cbn [negb].
  destruct (block_timestamp env + cooldownSeconds s >? MAX_UINT256); [done|].
  by replace (block_timestamp env' <? block_timestamp env + cooldownSeconds s) with true
    by (symmetry; by apply Z.ltb_lt).
Qed.

(** ** Batch ids *)

(** X9. In every reachable state a fusion of a batch id below 2 or beyond
    the current batch id reverts (batch 1, the id the constructor starts
    from, is never written), and as long as the current batch id is still 1
    every submission and every [closeBatch] reverts as well: nothing can be
    submitted before the owner opens a batch. *)
Theorem nothing_outside_opened_batches s :
  reachable s ->
  (forall b env, b < 2 \/ currentBatchId s < b ->
                 exists e, transact (FuseNFTs b) env s = Reverted e) /\
  (currentBatchId s = 1 ->
   (forall a1 a2 a3 env, exists e, transact (SubmitNFT a1 a2 a3) env s = Reverted e) /\
   (forall env, exists e, transact CloseBatch env s = Reverted e)).
Proof.
  intros Hr. apply reachable_wellFormed in Hr. destruct Hr as [Hcur Hfut Hfst Hcnt Hent].
  split.
  - intros b env Hb.
    assert (rd (batches s) b = zero) as Hz
      by (apply rd_None; destruct Hb; [by apply Hfst|by apply Hfut]).
    rewrite fuseNFTs_cases. cbv zeta. rewrite Hz. cbn.
    repeat case_match; eauto.
  - intros Hone.
    assert (rd (batches s) (currentBatchId s) = zero) as Hz
      by (apply rd_None, Hfst; lia).
    split; intros.
    + rewrite submitNFT_cases. cbv zeta. rewrite Hz. cbn.
      repeat case_match; eauto.
    + rewrite closeBatch_cases. cbv zeta. rewrite Hz. cbn.
      repeat case_match; eauto.
Qed.

Lemma closed_step c env s b :
  b <= currentBatchId s ->
  isOpen (rd (batches s) b) = false ->
  b <= currentBatchId (storage_after c env s) /\
  isOpen (rd (batches (storage_after c env s)) b) = false.
Proof.
  intros Hb Hclosed.
  destruct (storage_after_cases c env s) as [->|(u & l & Hbody)]; [done|].
  apply body_batches in Hbody. cbn zeta in Hbody.
  destruct c; try (destruct Hbody as [-> ->]; done).
  - destruct Hbody as (_ & _ & -> & ->). split; [lia|]. by rewrite rd_insert_ne by lia.
  - destruct Hbody as (_ & _ & -> & ->). split; [done|].
    destruct (decide (currentBatchId s = b)) as [<-|Hne].
    + by rewrite rd_insert_eq.
    + by rewrite rd_insert_ne.
  - destruct Hbody as (Hopen & _ & -> & ->). split; [done|].
    destruct (decide (currentBatchId s = b)) as [<-|Hne]; [congruence|].
    by rewrite rd_insert_ne.
Qed.

(** X10. A batch that is closed and whose id is at most the current batch
    id stays closed along every sequence of calls: [openBatch] always moves
    on to a fresh id and never reopens one. *)
Theorem closed_batch_stays_closed tr s b :
  b <= currentBatchId s ->
  isOpen (rd (batches s) b) = false ->
  isOpen (rd (batches (run tr s)) b) = false.
Proof.
  revert s. induction tr as [|[c env] tr IH]; intros s Hb Hclosed; cbn [run]; [done|].
  destruct (closed_step c env s b Hb Hclosed) as [Hb' Hclosed']. by apply IH.
Qed.

(** ** Token ids *)

Lemma completedTokenIds_app l1 l2 :
  completedTokenIds (l1 ++ l2) = completedTokenIds l1 ++ completedTokenIds l2.
Proof.
  induction l1 as [|x l1 IH]; [done|]. cbn.
  destruct x as [[]|]; cbn; by rewrite ?IH.
Qed.

Lemma consecutive_app first n m :
  consecutive first (n + m) = consecutive first n ++ consecutive (first + Z.of_nat n) m.
Proof.
  revert first. induction n as [|n IH]; intros first.
  - cbn. by rewrite Z.add_0_r.
  - cbn [consecutive Nat.add app]. rewrite IH. do 3 f_equal. lia.
Qed.

Lemma token_step c env s :
  (completedTokenIds (effects_of c env s) = [] /\
   lastTokenId (storage_after c env s) = lastTokenId s) \/
  (completedTokenIds (effects_of c env s) = [lastTokenId s + 1] /\
   lastTokenId (storage_after c env s) = lastTokenId s + 1).
Proof.
  unfold effects_of, storage_after.
  by_cases c; repeat case_match; simplify_eq; cbn; auto.
Qed.

(** X11. Token ids are handed out consecutively: the [FusionCompleted]
    events of any sequence of calls carry, in order, the ids
    [lastTokenId + 1], [lastTokenId + 2], ..., and [lastTokenId] advances by
    exactly the number of these events. *)
Theorem token_ids_are_consecutive tr s :
  let ids := completedTokenIds (effects_run tr s) in
  ids = consecutive (lastTokenId s + 1) (length ids) /\
  lastTokenId (run tr s) = lastTokenId s + Z.of_nat (length ids).
Proof.
  revert s. induction tr as [|[c env] tr IH]; intros s; cbn [effects_run run].
  - cbn. split; [done|lia].
  - cbv zeta in *. rewrite completedTokenIds_app, length_app, consecutive_app.
    destruct (IH (storage_after c env s)) as [IH1 IH2].
    destruct (token_step c env s) as [[-> Hs]|[-> Hs]]; rewrite Hs in *; cbn [length app].
    + cbn [consecutive Z.of_nat]. rewrite Z.add_0_r. split; [exact IH1|exact IH2].
    + cbn [consecutive app]. split; [f_equal; exact IH1|]. rewrite IH2. lia.
Qed.

(** ** Errors that cannot occur *)

(** X12. No call, in any state, reverts with [InvalidProof] or
    [AlreadyInitialized]: the contract declares both and raises neither. *)
Theorem declared_but_never_raised c env s :
  transact c env s <> Reverted Error.InvalidProof /\
  transact c env s <> Reverted Error.AlreadyInitialized.
Proof.
  by_cases c; repeat case_match; split; discriminate.
Qed.

(** X13. In a reachable state no call reverts with [InvalidNFT]: every
    entry below a batch's count was written by [submitNFT], initialized. *)
Theorem InvalidNFT_is_unreachable c env s :
  reachable s -> transact c env s <> Reverted Error.InvalidNFT.
Proof.
  intros Hr. apply reachable_wellFormed in Hr.
  assert (forall b, averageCiphertexts (rd (batches s) b) <> None) as Hav.
  { intros b. destruct (wellFormed_average s b Hr) as [cts ->]. done. }
  by_cases c; repeat case_match; try discriminate; by edestruct Hav.
Qed.

(** ** The cleartexts *)

Lemma be_value_bound bs : forall acc,
  0 <= acc ->
  0 <= fold_left (fun a b => a * 256 + Z.of_N (Byte.to_N b)) bs acc
    < (acc + 1) * 256 ^ Z.of_nat (length bs).
Proof.
  induction bs as [|b bs IH]; intros acc Hacc; cbn [fold_left length].
  - cbn. lia.
  - pose proof (Byte.to_N_bounded b) as Hb.
    destruct (IH (acc * 256 + Z.of_N (Byte.to_N b)) ltac:(lia)) as [H0 H1].
    split; [done|]. eapply Z.lt_le_trans; [exact H1|].
    rewrite Nat2Z.inj_succ, Z.pow_succ_r by lia.
    assert (0 < 256 ^ Z.of_nat (length bs)) by (apply Z.pow_pos_nonneg; lia).
    nia.
Qed.

(** X14. The callback reads exactly three 32-byte words: each decoded
    attribute is a value of [uint256]; bytes after the word do not change
    it; and with fewer than 96 bytes of cleartext the callback never
    commits, whatever the proof. *)
Theorem callback_reads_three_words :
  (forall k data, 0 <= word k data <= MAX_UINT256) /\
  (forall k data extra,
      (32 * (k + 1) <= length data)%nat -> word k (data ++ extra) = word k data) /\
  (forall r cleartexts proof env s s' l,
      (length cleartexts < 96)%nat ->
      transact (MyCallback r cleartexts proof) env s <> Committed s' l).
Proof.
  split; [|split].
  - intros k data. unfold word, be_value.
    destruct (be_value_bound (firstn 32 (skipn (32 * k) data)) 0 ltac:(done)) as [H0 H1].
    split; [done|].
    assert (256 ^ Z.of_nat (length (firstn 32 (skipn (32 * k) data))) <= 256 ^ 32) as Hp.
    { apply Z.pow_le_mono_r; [done|]. rewrite length_firstn. lia. }
    change (256 ^ 32) with (MAX_UINT256 + 1) in Hp. lia.
  - intros k data extra Hlen. unfold word. f_equal.
    rewrite skipn_app.
    replace (32 * k - length data)%nat with 0%nat by lia. cbn [skipn].
    rewrite firstn_app.
    replace (32 - length (skipn (32 * k) data))%nat with 0%nat
      by (rewrite length_skipn; lia).
    cbn [firstn]. apply app_nil_r.
  - intros r cleartexts proof env s s' l Hlen. rewrite myCallback_cases. cbv zeta.
    apply Nat.ltb_lt in Hlen. rewrite Hlen.
    repeat case_match; discriminate.
Qed.

(** ** Fusing and providers *)

(** X15. A fusion consumes nothing: after a request on a batch has
    committed, another provider whose request cooldown is over can request
    the fusion of the same batch again, and that request commits with the
    same ciphertexts and the same commitment, under its own request id; the
    batches are as they were. *)
Theorem batch_can_be_fused_again b env env2 s s1 l :
  transact (FuseNFTs b) env s = Committed s1 l ->
  msg_sender env2 <> msg_sender env ->
  rd (isProvider s) (msg_sender env2) = true ->
  cooldownOver (lastRequestTime s) s env2 ->
  exists cts s2,
    l = [RequestDecryption cts;
         Emit (Event.FusionRequested (requestId env) b (_hashCiphertexts cts))] /\
    transact (FuseNFTs b) env2 s1 =
      Committed s2
        [RequestDecryption cts;
         Emit (Event.FusionRequested (requestId env2) b (_hashCiphertexts cts))] /\
    batches s2 = batches s.
Proof.
  intros Ht Hne Hp2 [Hc Hc'].
  apply fuseNFTs_Committed in Ht as (_ & Hpa & _ & Hb0 & Hbc & Hn & cts & Hav & -> & ->).
  exists cts. eexists. split; [done|]. split.
  - apply fuseNFTs_commits; cbn; rewrite ?rd_insert_ne by done; done.
  - done.
Qed.

Lemma rd_delete_eq {A} `{Zero A} (m : gmap Z A) k : rd (delete k m) k = zero.
Proof. unfold rd. by rewrite lookup_delete_eq. Qed.

(** X16. Once [removeProvider p] has committed, every [submitNFT] and
    [fuseNFTs] by [p] reverts with [NotProvider], the owner included when
    it removes itself; the entries [p] submitted and the requests it made
    stay where they are. *)
Theorem removed_provider_is_locked_out p env s s1 l :
  transact (RemoveProvider p) env s = Committed s1 l ->
  (forall a1 a2 a3 env', msg_sender env' = p ->
      transact (SubmitNFT a1 a2 a3) env' s1 = Reverted Error.NotProvider) /\
  (forall b env', msg_sender env' = p ->
      transact (FuseNFTs b) env' s1 = Reverted Error.NotProvider) /\
  batches s1 = batches s /\
  decryptionContexts s1 = decryptionContexts s.
Proof.
  intros Ht. rewrite removeProvider_cases in Ht.
  destruct (msg_sender env =? owner s); [|done]. injection Ht as <- _.
  repeat split.
  - intros a1 a2 a3 env' Hs. rewrite submitNFT_cases. cbn. by rewrite Hs, rd_delete_eq.
  - intros b env' Hs. rewrite fuseNFTs_cases. cbn. by rewrite Hs, rd_delete_eq.
Qed.

(** ** Pending requests *)

Lemma count_step c env s b :
  wellFormed s ->
  currentBatchId s <= currentBatchId (storage_after c env s) /\
  numNFTs (rd (batches s) b) <= numNFTs (rd (batches (storage_after c env s)) b).
Proof.
  intros [Hcur Hfut Hfst Hcnt Hent].
  destruct (storage_after_cases c env s) as [->|(u & l & Hb)]; [done|].
  apply body_batches in Hb. cbn zeta in Hb.
  destruct c; try (destruct Hb as [-> ->]; done).
  - destruct Hb as (_ & _ & -> & ->). split; [lia|].
    destruct (decide (currentBatchId s + 1 = b)) as [<-|Hne].
    + rewrite rd_insert_eq. cbn.
      rewrite (rd_None _ (currentBatchId s + 1)) by (apply Hfut; lia). done.
    + by rewrite rd_insert_ne.
  - destruct Hb as (_ & _ & -> & ->). split; [done|].
    destruct (decide (currentBatchId s = b)) as [<-|Hne].
    + by rewrite rd_insert_eq.
    + by rewrite rd_insert_ne.
  - destruct Hb as (_ & _ & -> & ->). split; [done|].
    destruct (decide (currentBatchId s = b)) as [<-|Hne].
    + rewrite rd_insert_eq. cbn. lia.
    + by rewrite rd_insert_ne.
Qed.

Lemma pendingValid_step c env s :
  wellFormed s -> pendingValid s -> pendingValid (storage_after c env s).
Proof.
  intros Hwf Hpv r ctx Hr Hpend.
  assert (forall b, currentBatchId s <= currentBatchId (storage_after c env s) /\
                    numNFTs (rd (batches s) b) <=
                    numNFTs (rd (batches (storage_after c env s)) b)) as Hmono
    by (intros b; by apply count_step).
  assert (decryptionContexts s !! r = Some ctx ->
          2 <= batchId ctx <= currentBatchId (storage_after c env s) /\
          2 <= numNFTs (rd (batches (storage_after c env s)) (batchId ctx))) as Hold.
  { intros Hs. destruct (Hpv r ctx Hs Hpend) as [Hb Hn].
    destruct (Hmono (batchId ctx)). lia. }
  destruct (storage_after_cases c env s) as [Heq|(u & l & Hb)].
  { rewrite Heq in Hr. by apply Hold. }
  apply body_contexts in Hb.
  destruct c; try (destruct Hb as [Hd _]; rewrite Hd in Hr; by apply Hold).
  - destruct Hb as (cts & _ & Hb0 & Hbc & Hn & Hd & _). rewrite Hd in Hr.
    destruct (decide (requestId env = r)) as [Heq|Hne].
    + rewrite Heq, lookup_insert_eq in Hr. injection Hr as <-. cbn.
      destruct (Hmono _batchId) as [Hc Hm].
      assert (2 <= _batchId).
      { destruct (decide (2 <= _batchId)); [done|].
        rewrite (rd_None (batches s) _batchId) in Hn by (apply (wf_first s Hwf); lia).
        cbn in Hn. lia. }
      lia.
    + rewrite lookup_insert_ne in Hr by done. by apply Hold.
  - cbn zeta in Hb. destruct Hb as (cts & _ & _ & _ & _ & _ & _ & Hd & _). rewrite Hd in Hr.
    destruct (decide (requestId0 = r)) as [Heq|Hne].
    + rewrite Heq, lookup_insert_eq in Hr. injection Hr as <-. cbn in Hpend. done.
    + rewrite lookup_insert_ne in Hr by done. by apply Hold.
Qed.

(** X17. In every reachable state, every recorded request that is not yet
    processed points to a batch id between 2 and the current batch id, and
    that batch holds at least two entries. *)
Theorem pending_requests_are_valid s : reachable s -> pendingValid s.
Proof.
  induction 1 as [deployer|s c env Hr IH].
  - intros r ctx Hr. cbn in Hr. by rewrite lookup_empty in Hr.
  - apply pendingValid_step; [by apply reachable_wellFormed|done].
Qed.
End ContractMore.

(** * The dashboard figures *)

Module DashboardFacts.
Import Dashboard.

Lemma countOf_bump acc o a :
  countOf (bump acc o) a = countOf acc a + (if bool_decide (o = a) then 1 else 0).
Proof.
  induction acc as [|[k n] acc IH]; cbn [bump countOf].
  - case_bool_decide; lia.
  - destruct (bool_decide (k = o)) eqn:Hko; cbn [countOf].
    + apply bool_decide_eq_true in Hko as ->.
      case_bool_decide; lia.
    + apply bool_decide_eq_false in Hko.
      destruct (bool_decide (k = a)) eqn:Hka; [|exact IH].
      apply bool_decide_eq_true in Hka as ->.
      rewrite bool_decide_eq_false_2 by congruence. lia.
Qed.

Lemma keys_bump acc o :
  forall k, In k (map fst (bump acc o)) <-> In k (map fst acc) \/ k = o.
Proof.
  induction acc as [|[k0 n] acc IH]; intros k; cbn [bump].
  - cbn. intuition.
  - case_bool_decide as Hk; cbn [map fst In].
    + subst. intuition.
    + rewrite IH. tauto.
Qed.

Lemma NoDup_bump acc o : List.NoDup (map fst acc) -> List.NoDup (map fst (bump acc o)).
Proof.
  induction acc as [|[k n] acc IH]; intros Hnd; cbn [bump].
  - cbn. apply List.NoDup_cons_iff. split; [by intros []|constructor].
  - cbn [map fst] in Hnd. apply List.NoDup_cons_iff in Hnd as [Hk Hnd].
    case_bool_decide as Hko; cbn [map fst]; apply List.NoDup_cons_iff; split; auto.
    rewrite keys_bump. intros [?|?]; [done|congruence].
Qed.

Lemma positive_bump acc o :
  Forall (fun e => 1 <= snd e) acc -> Forall (fun e => 1 <= snd e) (bump acc o).
Proof.
  induction 1 as [|[k n] acc Hn Hacc IH]; cbn [bump].
  - by repeat constructor.
  - cbn in Hn. case_bool_decide; constructor; cbn; try done; lia.
Qed.

Lemma sum_bump acc o :
  fold_right Z.add 0 (map snd (bump acc o)) = fold_right Z.add 0 (map snd acc) + 1.
Proof.
  induction acc as [|[k n] acc IH]; cbn [bump]; [done|].
  case_bool_decide; cbn [map snd fold_right]; lia.
Qed.

(** The board after the records of [fusions] were added to [acc]. *)
Lemma board_fold fusions : forall acc,
  let board := fold_left (fun acc fusion => bump acc (owner fusion)) fusions acc in
  (forall a, countOf board a = countOf acc a + Z.of_nat (userFusionCount (Some a) fusions)) /\
  (List.NoDup (map fst acc) -> List.NoDup (map fst board)) /\
  (Forall (fun e => 1 <= snd e) acc -> Forall (fun e => 1 <= snd e) board) /\
  fold_right Z.add 0 (map snd board) =
    fold_right Z.add 0 (map snd acc) + Z.of_nat (length fusions).
Proof.
  induction fusions as [|f fusions IH]; intros acc; cbn [fold_left].
  - cbn. repeat split; intros; try done; lia.
  - destruct (IH (bump acc (owner f))) as (Hc & Hn & Hp & Hs). cbv zeta in *.
    repeat split.
    + intros a. rewrite Hc, countOf_bump. unfold userFusionCount. cbn [List.filter].
      destruct (bool_decide (owner f = a)) eqn:Hfa.
      * apply bool_decide_eq_true in Hfa as ->.
        rewrite bool_decide_eq_true_2 by done. cbn [length]. lia.
      * apply bool_decide_eq_false in Hfa.
        rewrite bool_decide_eq_false_2 by congruence. lia.
    + intros Hnd. by apply Hn, NoDup_bump.
    + intros Hpos. by apply Hp, positive_bump.
    + rewrite Hs, sum_bump. cbn [length]. lia.
Qed.

(** X18. The leaderboard counts: for owners that are plain dictionary
    keys, the count listed for an address is the number of loaded records
    that address owns (the figure [userFusionCount] shows for it), no
    address is listed twice, every listed count is at least one, and the
    counts add up to [fusionCount]. *)
Theorem leaderboard_counts fusions :
  Forall (fun f => plainKey (owner f) = true) fusions ->
  let board := leaderboard fusions in
  (forall a, countOf board a = Z.of_nat (userFusionCount (Some a) fusions)) /\
  List.NoDup (map fst board) /\
  Forall (fun e => 1 <= snd e) board /\
  fold_right Z.add 0 (map snd board) = Z.of_nat (fusionCount fusions).
Proof.
  intros _ board. destruct (board_fold fusions []) as (Hc & Hn & Hp & Hs).
  repeat split.
  - intros a. unfold board, leaderboard. by rewrite (Hc a).
  - apply Hn. constructor.
  - apply Hp. constructor.
  - exact Hs.
Qed.

Lemma insertByCount_perm x l : Permutation (insertByCount x l) (x :: l).
Proof.
  induction l as [|y l IH]; cbn [insertByCount]; [done|].
  destruct (snd x <? snd y); [|done].
  rewrite IH. apply perm_swap.
Qed.

Lemma sortByCount_perm l : Permutation (sortByCount l) l.
Proof.
  induction l as [|x l IH]; cbn [sortByCount fold_right]; [done|].
  fold (sortByCount l). by rewrite insertByCount_perm, IH.
Qed.

Lemma insertByCount_descending x l : descending l -> descending (insertByCount x l).
Proof.
  unfold descending. induction 1 as [|y l Hl IH Hy]; cbn [insertByCount].
  - by repeat constructor.
  - destruct (snd x <? snd y) eqn:Hxy.
    + apply Z.ltb_lt in Hxy. constructor; [done|].
      eapply Permutation_Forall; [symmetry; apply insertByCount_perm|].
      constructor; [lia|done].
    + apply Z.ltb_ge in Hxy. constructor; [by constructor|].
      constructor; [done|]. eapply Forall_impl; [exact Hy|]. cbn. intros; lia.
Qed.

Lemma sortByCount_descending l : descending (sortByCount l).
Proof.
  induction l as [|x l IH]; cbn [sortByCount fold_right]; [constructor|].
  by apply insertByCount_descending.
Qed.

Lemma descending_split n l :
  descending l ->
  descending (firstn n l) /\
  forall x y, In x (firstn n l) -> In y (skipn n l) -> snd y <= snd x.
Proof.
  unfold descending. intros Hl. revert n.
  induction Hl as [|z l Hl IH Hz]; intros n; destruct n as [|n]; cbn [firstn skipn].
  - split; [constructor|]. by intros ? ? [].
  - split; [constructor|]. by intros ? ? [].
  - split; [constructor|]. by intros ? ? [].
  - destruct (IH n) as [Hs Hd]. split.
    + constructor; [done|].
      rewrite List.Forall_forall in *. intros x Hx. apply Hz.
      rewrite <- (firstn_skipn n l). apply in_or_app. by left.
    + intros x y [<-|Hx] Hy.
      * rewrite List.Forall_forall in Hz. apply Hz.
        rewrite <- (firstn_skipn n l). apply in_or_app. by right.
      * by apply Hd.
Qed.

(** X19. The board that is shown: at most ten entries, in descending order
    of count, each of them an entry of the leaderboard; and an entry of the
    leaderboard that is not shown has a count no larger than any that is. *)
Theorem sortedLeaderboard_top_ten fusions :
  Forall (fun f => plainKey (owner f) = true) fusions ->
  let shown := sortedLeaderboard fusions in
  (length shown <= 10)%nat /\
  descending shown /\
  (forall e, In e shown -> In e (leaderboard fusions)) /\
  (forall e e', In e (leaderboard fusions) -> ~ In e shown -> In e' shown ->
                snd e <= snd e').
Proof.
  intros _ shown. unfold shown, sortedLeaderboard.
  pose proof (sortByCount_perm (leaderboard fusions)) as Hperm.
  pose proof (sortByCount_descending (leaderboard fusions)) as Hdesc.
  destruct (descending_split 10 _ Hdesc) as [Hs Hd].
  repeat split.
  - rewrite length_firstn. lia.
  - exact Hs.
  - intros e He. eapply Permutation_in; [exact Hperm|].
    rewrite <- (firstn_skipn 10). apply in_or_app. by left.
  - intros e e' He Hne He'. apply (Hd e' e He').
    apply (Permutation_in _ (Permutation_sym Hperm)) in He.
    rewrite <- (firstn_skipn 10) in He. apply in_app_or in He as [He|He]; done.
Qed.



End DashboardFacts.

(** * The further theorems on the concrete run *)

Section OnTheRunMore.
Let L := Plain.lib.
Let E := Plain.evm.
Let S := Demo.semantics.
Existing Instances L E S.

(** Address 2 tries to close the batch. *)
Lemma owner_calls_reject_others_witness :
  msg_sender (Demo.at_ 2 70 0) <> owner Demo.opened /\
  transact CloseBatch (Demo.at_ 2 70 0) Demo.opened = Reverted Error.NotOwner.
Proof.
  assert (msg_sender (Demo.at_ 2 70 0) <> owner Demo.opened) as Hne
    by (vm_compute; discriminate).
  split; [exact Hne|].
  apply (owner_calls_reject_others CloseBatch (Demo.at_ 2 70 0) Demo.opened eq_refl Hne).
Defined.

(** The owner doubles the cooldown. *)
Lemma settings_change_only_by_owner_witness :
  let c := SetCooldownSeconds 60 in
  let env := Demo.at_ 1 70 0 in
  cooldownSeconds (storage_after c env Demo.opened) <> cooldownSeconds Demo.opened /\
  isOwnerCall c = true /\ msg_sender env = owner Demo.opened.
Proof.
  intros c env.
  assert (cooldownSeconds (storage_after c env Demo.opened) <> cooldownSeconds Demo.opened)
    as Hne by (vm_compute; discriminate).
  split; [exact Hne|].
  apply (settings_change_only_by_owner c env Demo.opened).
  right. right. left. exact Hne.
Defined.

(** The owner pauses after the batch was opened: provider 2 and the
    stranger 5 are both turned away. *)
Lemma paused_blocks_submit_and_fuse_witness :
  let s := storage_after Pause (Demo.at_ 1 70 0) Demo.opened in
  paused s = true /\
  transact (SubmitNFT (Demo.h 1) (Demo.h 2) (Demo.h 3)) (Demo.at_ 2 100 0) s =
    Reverted Error.Paused /\
  transact (FuseNFTs 2) (Demo.at_ 5 100 7) s = Reverted Error.NotProvider.
Proof.
  intros s.
  assert (paused s = true) as Hp by (vm_compute; reflexivity).
  destruct (paused_blocks_submit_and_fuse s Hp) as [Hsub Hfuse].
  split; [exact Hp|]. split.
  - specialize (Hsub (Demo.h 1) (Demo.h 2) (Demo.h 3) (Demo.at_ 2 100 0)).
    assert (rd (isProvider s) (msg_sender (Demo.at_ 2 100 0)) = true) as Hprov
      by (vm_compute; reflexivity).
    rewrite Hprov in Hsub. exact Hsub.
  - specialize (Hfuse 2 (Demo.at_ 5 100 7)).
    assert (rd (isProvider s) (msg_sender (Demo.at_ 5 100 7)) = false) as Hprov
      by (vm_compute; reflexivity).
    rewrite Hprov in Hfuse. exact Hfuse.
Defined.

(** The owner pauses, pauses again, and unpauses. *)
Lemma pause_is_guarded_unpause_is_not_witness :
  let env := Demo.at_ 1 70 0 in
  let s := storage_after Pause env Demo.opened in
  msg_sender env = owner s /\ paused s = true /\
  transact Pause env s = Reverted Error.Paused /\
  transact Unpause env s = Committed (set_paused false s) [Emit (Event.Unpaused 1)].
Proof.
  intros env s.
  assert (msg_sender env = owner s) as Ho by (vm_compute; reflexivity).
  assert (paused s = true) as Hp by (vm_compute; reflexivity).
  destruct (pause_is_guarded_unpause_is_not env s Ho) as (Hpause & _ & Hunpause).
  split; [exact Ho|]. split; [exact Hp|]. split; [exact (Hpause Hp)|exact Hunpause].
Defined.

(** Address 1 submits at time 100 and tries again at 120, with the
    cooldown at 30 seconds. *)
Lemma submission_cooldown_witness :
  let c := SubmitNFT (Demo.h 10) (Demo.h 20) (Demo.h 30) in
  let env := Demo.at_ 1 100 0 in
  let env' := Demo.at_ 1 120 0 in
  let s1 := storage_after c env Demo.opened in
  transact c env Demo.opened = Committed s1 (effects_of c env Demo.opened) /\
  transact (SubmitNFT (Demo.h 1) (Demo.h 2) (Demo.h 3)) env' s1 =
    Reverted Error.CooldownActive /\
  lastRequestTime s1 = lastRequestTime Demo.opened.
Proof.
  intros c env env' s1.
  assert (transact c env Demo.opened = Committed s1 (effects_of c env Demo.opened)) as Ht
    by (vm_compute; reflexivity).
  split; [exact Ht|].
  destruct (submission_cooldown (Demo.h 10) (Demo.h 20) (Demo.h 30)
              (Demo.h 1) (Demo.h 2) (Demo.h 3) env env' Demo.opened s1 _ Ht eq_refl)
    as [Hrev Hreq].
  - vm_compute; reflexivity.
  - assert ((block_timestamp env + cooldownSeconds Demo.opened >? MAX_UINT256) = false)
      as Hsmall by (vm_compute; reflexivity).
    rewrite Hsmall in Hrev. split; [exact Hrev|exact Hreq].
Defined.

(** Address 1 requests the fusion at time 200 and again at 210. *)
Lemma request_cooldown_witness :
  let env := Demo.at_ 1 200 7 in
  let env' := Demo.at_ 1 210 8 in
  let s1 := storage_after (FuseNFTs 2) env Demo.submitted in
  transact (FuseNFTs 2) env Demo.submitted =
    Committed s1 (effects_of (FuseNFTs 2) env Demo.submitted) /\
  transact (FuseNFTs 2) env' s1 = Reverted Error.CooldownActive /\
  lastSubmissionTime s1 = lastSubmissionTime Demo.submitted.
Proof.
  intros env env' s1.
  assert (transact (FuseNFTs 2) env Demo.submitted =
            Committed s1 (effects_of (FuseNFTs 2) env Demo.submitted)) as Ht
    by (vm_compute; reflexivity).
  split; [exact Ht|].
  destruct (request_cooldown 2 2 env env' Demo.submitted s1 _ Ht eq_refl) as [Hrev Hsub].
  - vm_compute; reflexivity.
  - assert ((block_timestamp env + cooldownSeconds Demo.submitted >? MAX_UINT256) = false)
      as Hsmall by (vm_compute; reflexivity).
    rewrite Hsmall in Hrev. split; [exact Hrev|exact Hsub].
Defined.

(** Right after deployment: batch 1 cannot be fused and nothing can be
    submitted or closed. *)
Lemma nothing_outside_opened_batches_witness :
  currentBatchId Demo.deployed = 1 /\
  (exists e, transact (FuseNFTs 1) (Demo.at_ 1 100 7) Demo.deployed = Reverted e) /\
  (exists e, transact (SubmitNFT (Demo.h 1) (Demo.h 2) (Demo.h 3)) (Demo.at_ 1 100 0)
               Demo.deployed = Reverted e) /\
  (exists e, transact CloseBatch (Demo.at_ 1 100 0) Demo.deployed = Reverted e).
Proof.
  assert (currentBatchId Demo.deployed = 1) as Hone by reflexivity.
  destruct (nothing_outside_opened_batches Demo.deployed (reachable_deploy 1))
    as [Hfuse Hrest].
  destruct (Hrest Hone) as [Hsub Hclose].
  split; [exact Hone|]. split; [|split].
  - apply Hfuse. left. reflexivity.
  - apply Hsub.
  - apply Hclose.
Defined.

(** Batch 2 is closed; the owner opens batch 3 and submits to it. *)
Lemma closed_batch_stays_closed_witness :
  let s := storage_after CloseBatch (Demo.at_ 1 150 0) Demo.submitted in
  let tr := [(OpenBatch, Demo.at_ 1 160 0);
             (SubmitNFT (Demo.h 1) (Demo.h 2) (Demo.h 3), Demo.at_ 1 170 0)] in
  isOpen (rd (batches s) 2) = false /\
  isOpen (rd (batches (run tr s)) 2) = false /\
  isOpen (rd (batches (run tr s)) 3) = true.
Proof.
  intros s tr.
  assert (isOpen (rd (batches s) 2) = false) as Hclosed by (vm_compute; reflexivity).
  split; [exact Hclosed|]. split.
  - apply (closed_batch_stays_closed tr s 2); [vm_compute; discriminate|exact Hclosed].
  - vm_compute; reflexivity.
Defined.

(** The fusion of batch 2 with its two entries. *)
Lemma InvalidNFT_is_unreachable_witness :
  reachable Demo.submitted /\
  transact (FuseNFTs 2) (Demo.at_ 1 200 7) Demo.submitted <> Reverted Error.InvalidNFT.
Proof.
  assert (reachable Demo.submitted) as Hr.
  { unfold Demo.submitted, Demo.opened, Demo.run.
    repeat apply reachable_run. apply reachable_deploy. }
  split; [exact Hr|].
  apply (InvalidNFT_is_unreachable (FuseNFTs 2) (Demo.at_ 1 200 7) Demo.submitted Hr).
Defined.

(** Address 1 requests the fusion of batch 2 under id 7, address 2 under
    id 8. *)
Lemma batch_can_be_fused_again_witness :
  let env := Demo.at_ 1 200 7 in
  let env2 := Demo.at_ 2 205 8 in
  let s1 := storage_after (FuseNFTs 2) env Demo.submitted in
  let cts := [Demo.h 11; Demo.h 22; Demo.h 30] in
  exists s2,
    transact (FuseNFTs 2) env2 s1 =
      Committed s2
        [RequestDecryption cts; Emit (Event.FusionRequested 8 2 (_hashCiphertexts cts))] /\
    batches s2 = batches Demo.submitted.
Proof.
  intros env env2 s1 cts.
  assert (transact (FuseNFTs 2) env Demo.submitted =
            Committed s1 (effects_of (FuseNFTs 2) env Demo.submitted)) as Ht
    by (vm_compute; reflexivity).
  destruct (batch_can_be_fused_again 2 env env2 Demo.submitted s1 _ Ht)
    as (cts' & s2 & Hl & Hagain & Hb).
  - vm_compute; discriminate.
  - vm_compute; reflexivity.
  - split; vm_compute; discriminate.
  - assert (cts' = cts) as ->.
    { assert (effects_of (FuseNFTs 2) env Demo.submitted =
                [RequestDecryption cts;
                 Emit (Event.FusionRequested 7 2 (_hashCiphertexts cts))]) as Heff
        by (vm_compute; reflexivity).
      rewrite Heff in Hl. by injection Hl. }
    exists s2. split; [exact Hagain|exact Hb].
Defined.

(** The owner removes provider 2 after it has submitted. *)
Lemma removed_provider_is_locked_out_witness :
  let env := Demo.at_ 1 150 0 in
  let s1 := storage_after (RemoveProvider 2) env Demo.submitted in
  transact (RemoveProvider 2) env Demo.submitted =
    Committed s1 [Emit (Event.ProviderRemoved 2)] /\
  transact (SubmitNFT (Demo.h 1) (Demo.h 2) (Demo.h 3)) (Demo.at_ 2 200 0) s1 =
    Reverted Error.NotProvider /\
  transact (FuseNFTs 2) (Demo.at_ 2 200 8) s1 = Reverted Error.NotProvider /\
  batches s1 = batches Demo.submitted.
Proof.
  intros env s1.
  assert (transact (RemoveProvider 2) env Demo.submitted =
            Committed s1 [Emit (Event.ProviderRemoved 2)]) as Ht
    by (vm_compute; reflexivity).
  destruct (removed_provider_is_locked_out 2 env Demo.submitted s1 _ Ht)
    as (Hsub & Hfuse & Hb & _).
  split; [exact Ht|]. split; [|split].
  - apply Hsub. reflexivity.
  - apply Hfuse. reflexivity.
  - exact Hb.
Defined.

(** Request 7, pending on batch 2. *)
Lemma pending_requests_are_valid_witness :
  let ctx := {| batchId := 2;
                stateHash := _hashCiphertexts [Demo.h 11; Demo.h 22; Demo.h 30];
                processed := false |} in
  decryptionContexts Demo.requested !! 7 = Some ctx /\
  2 <= batchId ctx <= currentBatchId Demo.requested /\
  2 <= numNFTs (rd (batches Demo.requested) (batchId ctx)).
Proof.
  intros ctx.
  assert (reachable Demo.requested) as Hr.
  { unfold Demo.requested, Demo.submitted, Demo.opened, Demo.run.
    repeat apply reachable_run. apply reachable_deploy. }
  assert (decryptionContexts Demo.requested !! 7 = Some ctx) as Hctx
    by (vm_compute; reflexivity).
  split; [exact Hctx|].
  apply (pending_requests_are_valid Demo.requested Hr 7 ctx Hctx eq_refl).
Defined.
End OnTheRunMore.

(** * The dashboard figures on three records *)

Module DashboardRun.
Import Dashboard.

Lemma sample_plain : Forall (fun f => plainKey (owner f) = true) sample.
Proof. repeat constructor. Qed.

(** Two records of one address, one of another. *)
Lemma leaderboard_counts_witness :
  leaderboard sample = [(alice, 2); (bob, 1)] /\
  countOf (leaderboard sample) alice = Z.of_nat (userFusionCount (Some alice) sample) /\
  fold_right Z.add 0 (map snd (leaderboard sample)) = Z.of_nat (fusionCount sample).
Proof.
  destruct (DashboardFacts.leaderboard_counts sample sample_plain) as (Hc & _ & _ & Hs).
  split; [vm_compute; reflexivity|]. split; [apply Hc|exact Hs].
Defined.

Lemma sortedLeaderboard_top_ten_witness :
  sortedLeaderboard sample = [(alice, 2); (bob, 1)] /\
  (length (sortedLeaderboard sample) <= 10)%nat /\
  descending (sortedLeaderboard sample).
Proof.
  destruct (DashboardFacts.sortedLeaderboard_top_ten sample sample_plain)
    as (Hlen & Hdesc & _).
  split; [vm_compute; reflexivity|]. split; [exact Hlen|exact Hdesc].
Defined.

End DashboardRun.
